(** * Bank Lending System (app.js): loan accounting over a SQLite store

    A shallow embedding of [app.js] (Express + better-sqlite3, simple
    interest).  The three tables are lists of rows in insertion order, the
    route handlers are functions from a store to a reply and a new store,
    and [uuid()] and [datetime('now')] are inputs of the handler that calls
    them.  A request body carries JSON numbers and strings, or lacks a
    field; a reply is the status and the value handed to [res.json].

    JavaScript numbers are modelled as exact rationals extended with
    [Infinity], [-Infinity] and [NaN]: the special values follow IEEE 754 /
    ECMAScript, finite arithmetic is exact (binary64 rounding error is
    abstracted) and the zero is unsigned.  Finite results are kept in lowest
    terms, so equal numbers are equal terms. *)

From Stdlib Require Import QArith Qround Qreduction ZArith Lia Lqa.
From Stdlib Require Import List String Bool Permutation Sorted.
Import ListNotations.

Local Open Scope string_scope.
Local Open Scope list_scope.
Local Open Scope Q_scope.

(* ================================================================== *)
(** ** JavaScript numbers *)
(* ================================================================== *)

Module JS.

Inductive num : Type :=
| Fin (q : Q)
| PInf
| NInf
| NaN.

Definition isNaN (x : num) : bool :=
  match x with NaN => true | _ => false end.

Definition Qis_zero (q : Q) : bool := Z.eqb (Qnum q) 0.
Definition Qis_pos (q : Q) : bool := Z.ltb 0 (Qnum q).
Definition Qis_neg (q : Q) : bool := Z.ltb (Qnum q) 0.

Definition Qleb (a b : Q) : bool := Z.leb (Qnum a * QDen b) (Qnum b * QDen a).
Definition Qltb (a b : Q) : bool := Z.ltb (Qnum a * QDen b) (Qnum b * QDen a).

(** [x + y] *)
Definition add (x y : num) : num :=
  match x, y with
  | NaN, _ | _, NaN => NaN
  | Fin a, Fin b => Fin (Qred (a + b))
  | PInf, NInf | NInf, PInf => NaN
  | PInf, _ | _, PInf => PInf
  | NInf, _ | _, NInf => NInf
  end.

(** [x - y] *)
Definition sub (x y : num) : num :=
  match x, y with
  | NaN, _ | _, NaN => NaN
  | Fin a, Fin b => Fin (Qred (a - b))
  | PInf, PInf | NInf, NInf => NaN
  | PInf, _ | _, NInf => PInf
  | NInf, _ | _, PInf => NInf
  end.

(** The sign of an infinite product or quotient with a finite operand. *)
Definition signed_inf (positive : bool) : num :=
  if positive then PInf else NInf.

(** [x * y]; [Infinity * 0] is [NaN]. *)
Definition mul (x y : num) : num :=
  match x, y with
  | NaN, _ | _, NaN => NaN
  | Fin a, Fin b => Fin (Qred (a * b))
  | PInf, PInf | NInf, NInf => PInf
  | PInf, NInf | NInf, PInf => NInf
  | PInf, Fin b | Fin b, PInf =>
      if Qis_zero b then NaN else signed_inf (Qis_pos b)
  | NInf, Fin b | Fin b, NInf =>
      if Qis_zero b then NaN else signed_inf (Qis_neg b)
  end.

(** [x / y]; a finite number over zero is an infinity of its sign, [0 / 0]
    is [NaN], a finite number over an infinity is zero. *)
Definition div (x y : num) : num :=
  match x, y with
  | NaN, _ | _, NaN => NaN
  | Fin a, Fin b =>
      if Qis_zero b
      then if Qis_zero a then NaN else signed_inf (Qis_pos a)
      else Fin (Qred (a / b))
  | Fin _, (PInf | NInf) => Fin 0
  | (PInf | NInf), (PInf | NInf) => NaN
  | PInf, Fin b => signed_inf (negb (Qis_neg b))
  | NInf, Fin b => signed_inf (Qis_neg b)
  end.

(** [x <= y]; every comparison with [NaN] is false. *)
Definition le (x y : num) : bool :=
  match x, y with
  | NaN, _ | _, NaN => false
  | NInf, _ | _, PInf => true
  | Fin a, Fin b => Qleb a b
  | _, _ => false
  end.

(** [x < y] *)
Definition lt (x y : num) : bool :=
  match x, y with
  | NaN, _ | _, NaN => false
  | PInf, _ | _, NInf => false
  | Fin a, Fin b => Qltb a b
  | _, _ => true
  end.

(** [!x] on a number: true for [0] and [NaN]. *)
Definition falsy (x : num) : bool :=
  match x with
  | NaN => true
  | Fin a => Qis_zero a
  | _ => false
  end.

(** [Math.round]: the nearest integer, halves going up. *)
Definition Math_round (x : num) : num :=
  match x with
  | Fin a => Fin (inject_Z (Qfloor (a + (1 # 2))))
  | _ => x
  end.

(** [Math.ceil] *)
Definition Math_ceil (x : num) : num :=
  match x with
  | Fin a => Fin (inject_Z (Qceiling a))
  | _ => x
  end.

(** [Math.max(x, y)]: [NaN] if either argument is. *)
Definition Math_max (x y : num) : num :=
  match x, y with
  | NaN, _ | _, NaN => NaN
  | _, _ => if le x y then y else x
  end.

(** [Number.EPSILON] is 2^-52. *)
Definition Number_EPSILON : num := Fin (1 # 4503599627370496).

Definition of_Z (z : Z) : num := Fin (inject_Z z).

End JS.

Import JS.

Declare Scope js_scope.
Delimit Scope js_scope with js.
Bind Scope js_scope with num.
Infix "+" := add : js_scope.
Infix "-" := sub : js_scope.
Infix "*" := mul : js_scope.
Infix "/" := div : js_scope.
Infix "<=?" := le : js_scope.
Infix "<?" := lt : js_scope.

(* ================================================================== *)
(** ** helpers *)
(* ================================================================== *)

(** [const round2 = (n) => Math.round((n + Number.EPSILON) * 100) / 100;] *)
Definition round2 (n : num) : num :=
  (Math_round ((n + Number_EPSILON) * of_Z 100) / of_Z 100)%js.

(** [function computeSI({ P, N, Rpct })] returns [{ I, A }]. *)
Record SI : Type := mkSI { SI_I : num; SI_A : num }.

Definition computeSI (P N Rpct : num) : SI :=
  let I := (P * N * (Rpct / of_Z 100))%js in
  let A := (P + I)%js in
  mkSI I A.

(* ================================================================== *)
(** ** The store: three tables *)
(* ================================================================== *)

(** A [datetime('now')] value; only its order is observed
    ([ORDER BY datetime(...)]), so it is a count of seconds. *)
Definition timestamp : Type := Z.
Bind Scope Z_scope with timestamp.

Module Customer.
Record row : Type := mk {
  customer_id : string;
  name : option string;
  created_at : timestamp
}.
End Customer.

Inductive loan_status : Type := ACTIVE | PAID_OFF.

Definition loan_status_eqb (a b : loan_status) : bool :=
  match a, b with
  | ACTIVE, ACTIVE | PAID_OFF, PAID_OFF => true
  | _, _ => false
  end.

Module Loan.
Record row : Type := mk {
  loan_id : string;
  customer_id : string;
  principal_amount : num;
  interest_rate : num;
  loan_period_years : num;
  total_amount : num;
  monthly_emi : num;
  status : loan_status;
  created_at : timestamp
}.

Definition set_status (s : loan_status) (l : row) : row :=
  mk (loan_id l) (customer_id l) (principal_amount l) (interest_rate l)
     (loan_period_years l) (total_amount l) (monthly_emi l) s (created_at l).
End Loan.

Module Payment.
(** [rowid] is the implicit integer key SQLite gives every row of the
    table; the ledger orders by it. *)
Record row : Type := mk {
  rowid : Z;
  payment_id : string;
  loan_id : string;
  amount : num;
  payment_type : string;
  payment_date : timestamp
}.
End Payment.

(** Each table is the list of its rows in insertion order. *)
Record DB : Type := mkDB {
  customers : list Customer.row;
  loans : list Loan.row;
  payments : list Payment.row
}.

Definition empty_db : DB := mkDB [] [] [].

(** What a handler throws: [throw { code, msg }] of [getLoanOr404], or an
    error of the database driver, whose [code] is a string and which has no
    [msg]. *)
Inductive exn : Type :=
| HttpError (code : nat) (msg : string)
| SqliteError (code : string).

Inductive result (A : Type) : Type :=
| Ok (a : A)
| Throw (e : exn).
Arguments Ok {A} a.
Arguments Throw {A} e.

Definition bind {A B : Type} (r : result A) (k : A -> result B) : result B :=
  match r with
  | Ok a => k a
  | Throw e => Throw e
  end.

Notation "x <- r ;; k" := (bind r (fun x => k))
  (at level 61, r at next level, right associativity).

(** *** SQL statements *)

(** [SELECT * FROM loans WHERE loan_id = ?] with [.get]: the first row. *)
Definition select_loan (loanId : string) (db : DB) : option Loan.row :=
  find (fun l => String.eqb (Loan.loan_id l) loanId) (loans db).

(** [FROM payments WHERE loan_id = ?] *)
Definition payments_of (loanId : string) (db : DB) : list Payment.row :=
  filter (fun p => String.eqb (Payment.loan_id p) loanId) (payments db).

(** A REAL travels between SQLite and the program as a double or NULL;
    [NaN] becomes NULL on the way. *)
Definition sql_real (x : num) : option num :=
  if isNaN x then None else Some x.

(** [SUM(amount)]: NULL over no rows, else the running sum from zero. *)
Definition SUM (amounts : list num) : option num :=
  match amounts with
  | [] => None
  | _ => sql_real (fold_left add amounts (Fin 0))
  end.

Definition COALESCE (v : option num) (d : num) : num :=
  match v with
  | Some x => x
  | None => d
  end.

(** [SELECT COALESCE(SUM(amount),0) AS paid FROM payments WHERE loan_id = ?] *)
Definition select_paid (loanId : string) (db : DB) : num :=
  COALESCE (SUM (map Payment.amount (payments_of loanId db))) (Fin 0).

(** [INSERT INTO customers (customer_id, name) VALUES (?, ?)] *)
Definition insert_customer (now : timestamp) (customer_id : string)
    (name : option string) (db : DB) : DB :=
  mkDB (customers db ++ [Customer.mk customer_id name now]) (loans db) (payments db).

(** [INSERT INTO loans (...) VALUES (?, ?, ?, ?, ?, ?, ?, 'ACTIVE')]: the
    REAL columns are NOT NULL and [loan_id] is the primary key. *)
Definition insert_loan (now : timestamp) (loan_id customer_id : string)
    (P R N total emi : num) (db : DB) : result DB :=
  if isNaN P || isNaN R || isNaN N || isNaN total || isNaN emi
  then Throw (SqliteError "SQLITE_CONSTRAINT_NOTNULL")
  else if existsb (fun l => String.eqb (Loan.loan_id l) loan_id) (loans db)
  then Throw (SqliteError "SQLITE_CONSTRAINT_PRIMARYKEY")
  else Ok (mkDB (customers db)
                (loans db ++ [Loan.mk loan_id customer_id P R N total emi ACTIVE now])
                (payments db)).

(** A new row gets the largest rowid in the table plus one. *)
Definition next_rowid (ps : list Payment.row) : Z :=
  (fold_right Z.max 0 (map Payment.rowid ps) + 1)%Z.

(** [INSERT INTO payments (payment_id, loan_id, amount, payment_type)
    VALUES (?, ?, ?, ?)]; the handler has checked [payment_type] against
    the two values of the CHECK constraint before it gets here. *)
Definition insert_payment (now : timestamp) (payment_id loan_id : string)
    (amount : num) (payment_type : string) (db : DB) : result DB :=
  if isNaN amount
  then Throw (SqliteError "SQLITE_CONSTRAINT_NOTNULL")
  else if existsb (fun p => String.eqb (Payment.payment_id p) payment_id) (payments db)
  then Throw (SqliteError "SQLITE_CONSTRAINT_PRIMARYKEY")
  else Ok (mkDB (customers db) (loans db)
                (payments db ++
                  [Payment.mk (next_rowid (payments db)) payment_id loan_id amount
                              payment_type now])).

(** [UPDATE loans SET status='PAID_OFF' WHERE loan_id = ?] *)
Definition update_paid_off (loanId : string) (db : DB) : DB :=
  mkDB (customers db)
       (map (fun l => if String.eqb (Loan.loan_id l) loanId
                      then Loan.set_status PAID_OFF l else l) (loans db))
       (payments db).

(** [ORDER BY]: a stable insertion sort by the given order. *)
Section OrderBy.
Context {A : Type} (leb : A -> A -> bool).

Fixpoint insert_sorted (x : A) (l : list A) : list A :=
  match l with
  | [] => [x]
  | y :: l' => if leb y x then y :: insert_sorted x l' else x :: l
  end.

Definition order_by (l : list A) : list A :=
  fold_left (fun acc x => insert_sorted x acc) l [].
End OrderBy.

(** [ORDER BY datetime(payment_date) ASC, rowid ASC] *)
Definition ledger_leb (a b : Payment.row) : bool :=
  (Payment.payment_date a <? Payment.payment_date b)%Z
  || ((Payment.payment_date a =? Payment.payment_date b)%Z
      && (Payment.rowid a <=? Payment.rowid b)%Z).

(** [ORDER BY datetime(created_at) DESC] *)
Definition newest_first_leb (a b : Loan.row) : bool :=
  (Loan.created_at b <=? Loan.created_at a)%Z.

(* ================================================================== *)
(** ** Replies *)
(* ================================================================== *)

(** The value handed to [res.json]. *)
Unset Elimination Schemes.
Inductive json : Type :=
| JNull
| JNum (n : num)
| JStr (s : string)
| JBool (b : bool)
| JDate (t : timestamp)
| JArr (items : list json)
| JObj (fields : list (string * json)).
Set Elimination Schemes.

(** [obj.key] *)
Fixpoint field (key : string) (fields : list (string * json)) : option json :=
  match fields with
  | [] => None
  | (k, v) :: rest => if String.eqb k key then Some v else field key rest
  end.

Definition get (key : string) (j : json) : option json :=
  match j with
  | JObj fields => field key fields
  | _ => None
  end.

(** [res.status(code)]: a number on every path of the handlers, the
    driver's string when a database error reaches the [catch]. *)
Inductive status_code : Type :=
| Http (code : nat)
| Driver (code : string).

Record response : Type := mkResponse {
  res_status : status_code;
  res_body : json
}.

Definition error_body (msg : string) : json := JObj [("error", JStr msg)].

(** [res.status(code).json({ error: msg })] *)
Definition reply_error (code : nat) (msg : string) : response :=
  mkResponse (Http code) (error_body msg).

(** [catch (e) { const status = e.code || 500;
    return res.status(status).json({ error: e.msg || "Internal error" }); }] *)
Definition caught (e : exn) : response :=
  match e with
  | HttpError code msg =>
      mkResponse (Http (if Nat.eqb code 0 then 500 else code))
                 (error_body (if String.eqb msg "" then "Internal error" else msg))
  | SqliteError code =>
      mkResponse (if String.eqb code "" then Http 500 else Driver code)
                 (error_body "Internal error")
  end.

(** The errors of the interface, as the handlers reply them. *)
Definition InvalidTerms : response := reply_error 400 "Invalid numeric values".
Definition LoanNotFound : response := reply_error 404 "Loan not found".
Definition InvalidAmount : response := reply_error 400 "amount must be > 0".
Definition InvalidPaymentType : response :=
  reply_error 400 "payment_type must be 'EMI' or 'LUMP_SUM'".
Definition LoanAlreadySettled : response := reply_error 409 "Loan already paid off".
Definition NoLoansForCustomer : response := reply_error 404 "No loans for this customer".

Definition status_text (s : loan_status) : string :=
  match s with
  | ACTIVE => "ACTIVE"
  | PAID_OFF => "PAID_OFF"
  end.

(* ================================================================== *)
(** ** helpers over the store *)
(* ================================================================== *)

(** [function getLoanOr404(loanId)] *)
Definition getLoanOr404 (loanId : string) (db : DB) : result Loan.row :=
  match select_loan loanId db with
  | Some loan => Ok loan
  | None => Throw (HttpError 404 "Loan not found")
  end.

(** [function totalsForLoan(loanId)] returns [{ loan, paid, balance, emisLeft }]. *)
Record totals : Type := mkTotals {
  t_loan : Loan.row;
  t_paid : num;
  t_balance : num;
  t_emisLeft : num
}.

Definition totalsForLoan (loanId : string) (db : DB) : result totals :=
  let paid := select_paid loanId db in
  loan <- getLoanOr404 loanId db ;;
  let balance := Math_max (of_Z 0) (round2 (Loan.total_amount loan - paid)%js) in
  let emisLeft :=
    if (balance <=? of_Z 0)%js then of_Z 0
    else Math_ceil (balance / Loan.monthly_emi loan)%js in
  Ok (mkTotals loan (round2 paid) balance emisLeft).

(** [function upsertCustomer(customer_id)] *)
Definition upsertCustomer (now : timestamp) (customer_id : string) (db : DB) : DB :=
  match find (fun c => String.eqb (Customer.customer_id c) customer_id) (customers db) with
  | Some _ => db
  | None => insert_customer now customer_id None db
  end.

(* ================================================================== *)
(** ** API *)
(* ================================================================== *)

(** The body of a request: a field is a JSON number or string, or absent. *)
Module LoanReq.
Record t : Type := mk {
  customer_id : option string;
  loan_amount : option num;
  loan_period_years : option num;
  interest_rate_yearly : option num
}.
End LoanReq.

Module PaymentReq.
Record t : Type := mk {
  amount : option num;
  payment_type : option string
}.
End PaymentReq.

(** [Number(x)] of a number. *)
Definition Number (x : num) : num := x.

(** [app.post("/api/v1/loans", ...)]; [uuid] is what [uuid()] returns and
    [now] what [datetime('now')] gives during the call. *)
Definition post_loans (uuid : string) (now : timestamp) (req : LoanReq.t) (db : DB)
  : response * DB :=
  match LoanReq.customer_id req, LoanReq.loan_amount req,
        LoanReq.loan_period_years req, LoanReq.interest_rate_yearly req with
  | Some customer_id, Some loan_amount, Some loan_period_years, Some interest_rate_yearly =>
      if String.eqb customer_id "" then
        (reply_error 400
           "customer_id, loan_amount, loan_period_years, interest_rate_yearly are required",
         db)
      else if (loan_amount <=? of_Z 0)%js || (loan_period_years <=? of_Z 0)%js
              || (interest_rate_yearly <? of_Z 0)%js then
        (InvalidTerms, db)
      else
        let db1 := upsertCustomer now customer_id db in
        let P := Number loan_amount in
        let N := Number loan_period_years in
        let R := Number interest_rate_yearly in
        let si := computeSI P N R in
        let I := SI_I si in
        let A := SI_A si in
        let totalMonths := (N * of_Z 12)%js in
        let emi := round2 (A / totalMonths)%js in
        let loan_id := uuid in
        match insert_loan now loan_id customer_id P R N (round2 A) emi db1 with
        | Throw e => (caught e, db1)
        | Ok db2 =>
            (mkResponse (Http 201)
               (JObj [("loan_id", JStr loan_id);
                      ("customer_id", JStr customer_id);
                      ("principal", JNum (round2 P));
                      ("total_interest", JNum (round2 I));
                      ("total_amount_payable", JNum (round2 A));
                      ("monthly_emi", JNum emi)]),
             db2)
        end
  | _, _, _, _ =>
      (reply_error 400
         "customer_id, loan_amount, loan_period_years, interest_rate_yearly are required",
       db)
  end.

(** [["EMI", "LUMP_SUM"].includes(payment_type)] *)
Definition known_payment_type (payment_type : string) : bool :=
  String.eqb payment_type "EMI" || String.eqb payment_type "LUMP_SUM".

(** [!amount || amount <= 0] *)
Definition bad_amount (amount : num) : bool :=
  falsy amount || (amount <=? of_Z 0)%js.

(** [!payment_type || !["EMI", "LUMP_SUM"].includes(payment_type)] *)
Definition bad_payment_type (payment_type : string) : bool :=
  String.eqb payment_type "" || negb (known_payment_type payment_type).

(** [app.post("/api/v1/loans/:loanId/payments", ...)]; an absent [amount]
    or [payment_type] is [undefined] and fails its test. *)
Definition post_payments (uuid : string) (now : timestamp) (loanId : string)
    (req : PaymentReq.t) (db : DB) : response * DB :=
  match getLoanOr404 loanId db with
  | Throw e => (caught e, db)
  | Ok loan =>
      match PaymentReq.amount req with
      | None => (InvalidAmount, db)
      | Some amount =>
      if bad_amount amount then (InvalidAmount, db)
      else
      match PaymentReq.payment_type req with
      | None => (InvalidPaymentType, db)
      | Some payment_type =>
      if bad_payment_type payment_type then (InvalidPaymentType, db)
      else if loan_status_eqb (Loan.status loan) PAID_OFF then (LoanAlreadySettled, db)
      else
        let payment_id := uuid in
        match insert_payment now payment_id loanId (round2 (Number amount)) payment_type db with
        | Throw e => (caught e, db)
        | Ok db1 =>
            match totalsForLoan loanId db1 with
            | Throw e => (caught e, db1)
            | Ok t =>
                let balance := t_balance t in
                let emisLeft := t_emisLeft t in
                let db2 :=
                  if (balance <=? of_Z 0)%js
                     && negb (loan_status_eqb (Loan.status loan) PAID_OFF)
                  then update_paid_off loanId db1 else db1 in
                (mkResponse (Http 200)
                   (JObj [("payment_id", JStr payment_id);
                          ("loan_id", JStr loanId);
                          ("message", JStr "Payment recorded successfully");
                          ("remaining_balance", JNum balance);
                          ("emis_left", JNum emisLeft)]),
                 db2)
            end
        end
      end
      end
  end.

(** The rows of the ledger query, in its order. *)
Definition ledger_rows (loanId : string) (db : DB) : list Payment.row :=
  order_by ledger_leb (payments_of loanId db).

(** [SELECT payment_id as transaction_id, payment_date as date, amount,
    payment_type as type] *)
Definition txn_json (p : Payment.row) : json :=
  JObj [("transaction_id", JStr (Payment.payment_id p));
        ("date", JDate (Payment.payment_date p));
        ("amount", JNum (Payment.amount p));
        ("type", JStr (Payment.payment_type p))].

(** [app.get("/api/v1/loans/:loanId/ledger", ...)] *)
Definition get_ledger (loanId : string) (db : DB) : response :=
  match totalsForLoan loanId db with
  | Throw e => caught e
  | Ok t =>
      let loan := t_loan t in
      let txns := map txn_json (ledger_rows loanId db) in
      mkResponse (Http 200)
        (JObj [("loan_id", JStr (Loan.loan_id loan));
               ("customer_id", JStr (Loan.customer_id loan));
               ("principal", JNum (round2 (Loan.principal_amount loan)));
               ("total_amount", JNum (round2 (Loan.total_amount loan)));
               ("monthly_emi", JNum (round2 (Loan.monthly_emi loan)));
               ("amount_paid", JNum (t_paid t));
               ("balance_amount", JNum (t_balance t));
               ("emis_left", JNum (t_emisLeft t));
               ("status", JStr (status_text (Loan.status loan)));
               ("transactions", JArr txns)])
  end.

(** [SELECT * FROM loans WHERE customer_id = ? ORDER BY datetime(created_at) DESC] *)
Definition loans_of_customer (customerId : string) (db : DB) : list Loan.row :=
  order_by newest_first_leb
    (filter (fun l => String.eqb (Loan.customer_id l) customerId) (loans db)).

(** The callback of [loans.map] in the overview. *)
Definition overview_entry (db : DB) (ln : Loan.row) : json :=
  let paid := select_paid (Loan.loan_id ln) db in
  let balance := Math_max (of_Z 0) (round2 (Loan.total_amount ln - paid)%js) in
  let emisLeft :=
    if (balance <=? of_Z 0)%js then of_Z 0
    else Math_ceil (balance / Loan.monthly_emi ln)%js in
  let totalInterest := round2 (Loan.total_amount ln - Loan.principal_amount ln)%js in
  JObj [("loan_id", JStr (Loan.loan_id ln));
        ("principal", JNum (round2 (Loan.principal_amount ln)));
        ("total_amount", JNum (round2 (Loan.total_amount ln)));
        ("total_interest", JNum totalInterest);
        ("emi_amount", JNum (round2 (Loan.monthly_emi ln)));
        ("amount_paid", JNum (round2 paid));
        ("emis_left", JNum emisLeft);
        ("status", JStr (status_text (Loan.status ln)));
        ("created_at", JDate (Loan.created_at ln))].

(** [app.get("/api/v1/customers/:customerId/overview", ...)] *)
Definition get_overview (customerId : string) (db : DB) : response :=
  let loans := loans_of_customer customerId db in
  if Nat.eqb (List.length loans) 0 then NoLoansForCustomer
  else
    let out := map (overview_entry db) loans in
    mkResponse (Http 200)
      (JObj [("customer_id", JStr customerId);
             ("total_loans", JNum (of_Z (Z.of_nat (List.length out))));
             ("loans", JArr out)]).

(** [app.get("/health", (_, res) => res.json({ ok: true }))] *)
Definition get_health : response :=
  mkResponse (Http 200) (JObj [("ok", JBool true)]).

(* ================================================================== *)
(** ** The server as a transition system *)
(* ================================================================== *)

(** One call of a route, with what [uuid()] and the clock give during it. *)
Inductive request : Type :=
| PostLoans (uuid : string) (now : timestamp) (req : LoanReq.t)
| PostPayments (uuid : string) (now : timestamp) (loanId : string) (req : PaymentReq.t)
| GetLedger (loanId : string)
| GetOverview (customerId : string)
| GetHealth.

Definition handle (r : request) (db : DB) : response * DB :=
  match r with
  | PostLoans uuid now req => post_loans uuid now req db
  | PostPayments uuid now loanId req => post_payments uuid now loanId req db
  | GetLedger loanId => (get_ledger loanId db, db)
  | GetOverview customerId => (get_overview customerId db, db)
  | GetHealth => (get_health, db)
  end.

(** The stores the server can be in: the empty schema, then any calls. *)
Inductive reachable : DB -> Prop :=
| reachable_empty : reachable empty_db
| reachable_step : forall db r, reachable db -> reachable (snd (handle r db)).

Definition run (rs : list request) (db : DB) : DB :=
  fold_left (fun db r => snd (handle r db)) rs db.

(** *** The scenario of the specification *)

Definition loan_request (c : string) (P N R : num) : LoanReq.t :=
  LoanReq.mk (Some c) (Some P) (Some N) (Some R).

Definition payment_request (a : num) (t : string) : PaymentReq.t :=
  PaymentReq.mk (Some a) (Some t).

Definition scenario_db0 : DB :=
  snd (post_loans "L1" 10 (loan_request "alice" (of_Z 100000) (of_Z 1) (of_Z 10)) empty_db).

Definition scenario_pay1 : response * DB :=
  post_payments "T1" 20 "L1" (payment_request (Fin (916667 # 100)) "EMI") scenario_db0.

Definition scenario_pay2 : response * DB :=
  post_payments "T2" 30 "L1" (payment_request (Fin (10083333 # 100)) "LUMP_SUM")
    (snd scenario_pay1).

(* ================================================================== *)
(** ** Notions used in the statements *)
(* ================================================================== *)

(** Amounts in whole cents. *)
Definition cents (q : Q) : Prop := exists k : Z, q == k # 100.

(** The integer [Math.round((n + Number.EPSILON) * 100)] of a finite [n]. *)
Definition round2_cents (q : Q) : Z :=
  Qfloor (Qred (Qred (q + (1 # 4503599627370496)) * inject_Z 100) + (1 # 2)).

(** The sum of a list of amounts. *)
Definition sum_amounts (amounts : list num) : num := fold_right add (Fin 0) amounts.

(** The amounts recorded against a loan, in insertion order. *)
Definition amounts_of (loanId : string) (db : DB) : list num :=
  map Payment.amount (payments_of loanId db).

(** The row a payment call appends. *)
Definition new_payment (uuid : string) (now : timestamp) (loanId : string)
    (amount : num) (payment_type : string) (db : DB) : Payment.row :=
  Payment.mk (next_rowid (payments db)) uuid loanId (round2 amount) payment_type now.

Definition with_payment (p : Payment.row) (db : DB) : DB :=
  mkDB (customers db) (loans db) (payments db ++ [p]).

(** A store with a payment of half a cent, as the schema admits it. *)
Definition half_cent_db : DB :=
  with_payment (Payment.mk 1 "T1" "L1" (Fin (5 # 1000)) "EMI" 20) scenario_db0.

(** The two expressions [totalsForLoan] and the overview share. *)
Definition balance_due (loan : Loan.row) (paid : num) : num :=
  Math_max (of_Z 0) (round2 (Loan.total_amount loan - paid)%js).

Definition emis_left (loan : Loan.row) (balance : num) : num :=
  if (balance <=? of_Z 0)%js then of_Z 0
  else Math_ceil (balance / Loan.monthly_emi loan)%js.

(** A loan of one cent over one year at no interest: its installment
    rounds to zero. *)
Definition one_cent_request : request :=
  PostLoans "L0" 10 (loan_request "bob" (Fin (1 # 100)) (of_Z 1) (of_Z 0)).

Definition one_cent_db : DB := snd (handle one_cent_request empty_db).

(** The row a loan call appends. *)
Definition new_loan (uuid : string) (now : timestamp) (customer_id : string)
    (P N R : num) : Loan.row :=
  let A := SI_A (computeSI P N R) in
  Loan.mk uuid customer_id P R N (round2 A) (round2 (A / (N * of_Z 12))%js) ACTIVE now.

(** The terms of a loan: every column but [status]. *)
Definition same_terms (l l' : Loan.row) : Prop :=
  Loan.loan_id l' = Loan.loan_id l /\
  Loan.customer_id l' = Loan.customer_id l /\
  Loan.principal_amount l' = Loan.principal_amount l /\
  Loan.interest_rate l' = Loan.interest_rate l /\
  Loan.loan_period_years l' = Loan.loan_period_years l /\
  Loan.total_amount l' = Loan.total_amount l /\
  Loan.monthly_emi l' = Loan.monthly_emi l /\
  Loan.created_at l' = Loan.created_at l.

(** What [UPDATE loans SET status='PAID_OFF' WHERE loan_id = ?] does to a row. *)
Definition mark_paid_off (loanId : string) (l : Loan.row) : Loan.row :=
  if String.eqb (Loan.loan_id l) loanId then Loan.set_status PAID_OFF l else l.

(** A payment of 0.004 on the loan of the scenario. *)
Definition sub_cent_payment : request :=
  PostPayments "T1" 20 "L1" (payment_request (Fin (4 # 1000)) "EMI").

(** A stored amount: whole cents, or [Infinity]. *)
Definition money (x : num) : Prop := x = PInf \/ exists q, x = Fin q /\ cents q.

(** The cumulative payments recorded against a loan. *)
Definition paid_to_date (loanId : string) (db : DB) : num :=
  sum_amounts (amounts_of loanId db).

(** C5 in the words of the specification: a loan is PAID_OFF exactly when
    its cumulative payments reach or exceed its total payable. *)
Definition status_matches_payments (db : DB) : Prop :=
  forall l, In l (loans db) ->
    (Loan.status l = PAID_OFF
     <-> (Loan.total_amount l <=? paid_to_date (Loan.loan_id l) db)%js = true).

(** A loan of a tenth of a cent: its total payable rounds to zero. *)
Definition tenth_cent_request : request :=
  PostLoans "L0" 10 (loan_request "bob" (Fin (1 # 1000)) (of_Z 1) (of_Z 0)).

Definition tenth_cent_db : DB := snd (handle tenth_cent_request empty_db).

(** What holds of every store the server can be in. *)
Record store_inv (db : DB) : Prop := mkInv {
  inv_ids : NoDup (map Loan.loan_id (loans db));
  inv_ref : forall p, In p (payments db) ->
                      In (Payment.loan_id p) (map Loan.loan_id (loans db));
  inv_amounts : forall p, In p (payments db) -> money (Payment.amount p);
  inv_totals : forall l t, In l (loans db) -> Loan.total_amount l = Fin t -> cents t;
  inv_status : forall l t, In l (loans db) -> Loan.total_amount l = Fin t -> 0 < t ->
    (Loan.status l = PAID_OFF
     <-> (Loan.total_amount l <=? paid_to_date (Loan.loan_id l) db)%js = true)
}.

(** The order of the ledger: by time, then by rowid. *)
Definition ledger_before (a b : Payment.row) : Prop :=
  (Payment.payment_date a < Payment.payment_date b)%Z \/
  (Payment.payment_date a = Payment.payment_date b /\
   (Payment.rowid a < Payment.rowid b)%Z).

(** Inserted earlier: a smaller rowid. *)
Definition inserted_before (a b : Payment.row) : Prop :=
  (Payment.rowid a < Payment.rowid b)%Z.

(** Created no earlier. *)
Definition not_older (a b : Loan.row) : Prop :=
  (Loan.created_at b <= Loan.created_at a)%Z.

(** Two payments of the same second on the loan of the scenario. *)
Definition same_second_db : DB :=
  run [PostPayments "T1" 20 "L1" (payment_request (Fin 5) "EMI");
       PostPayments "T2" 20 "L1" (payment_request (Fin 7) "LUMP_SUM")] scenario_db0.

(** The keys of an object. *)
Definition keys (j : json) : list string :=
  match j with
  | JObj fields => map fst fields
  | _ => []
  end.

(** The loans of a customer, in table order. *)
Definition loans_where_customer (customerId : string) (db : DB) : list Loan.row :=
  filter (fun l => String.eqb (Loan.customer_id l) customerId) (loans db).

(** The store of the scenario with its two payments in the other order. *)
Definition swapped_db : DB :=
  mkDB (customers (snd scenario_pay2)) (loans (snd scenario_pay2))
       (rev (payments (snd scenario_pay2))).

(* ================================================================== *)
(** ** Notions used in the further properties *)
(* ================================================================== *)

(** The test of the loan route on its three numbers passes. *)
Definition valid_terms (loan_amount loan_period_years interest_rate_yearly : num) : bool :=
  negb ((loan_amount <=? of_Z 0)%js || (loan_period_years <=? of_Z 0)%js
        || (interest_rate_yearly <? of_Z 0)%js).

(** [SELECT customer_id FROM customers WHERE customer_id = ?] *)
Definition select_customer (customer_id : string) (db : DB) : option Customer.row :=
  find (fun c => String.eqb (Customer.customer_id c) customer_id) (customers db).

(** The reply of the loan route when a field is missing. *)
Definition FieldsRequired : response :=
  reply_error 400
    "customer_id, loan_amount, loan_period_years, interest_rate_yearly are required".

(** The reply of a handler whose [catch] got an error of the database
    driver. *)
Definition internal_error (r : response) : Prop :=
  res_body r = error_body "Internal error" /\ res_status r <> Http 201 /\
  res_status r <> Http 200.

(** A loan call whose drawn id is already taken. *)
Definition collision_request : request :=
  PostLoans "L1" 40 (loan_request "dave" (of_Z 500) (of_Z 2) (of_Z 5)).

(** The stored total and installment of a loan are those of origination
    for its stored terms. *)
Definition origination_consistent (l : Loan.row) : Prop :=
  let A := SI_A (computeSI (Loan.principal_amount l) (Loan.loan_period_years l)
                   (Loan.interest_rate l)) in
  Loan.total_amount l = round2 A /\
  Loan.monthly_emi l = round2 (A / (Loan.loan_period_years l * of_Z 12))%js.

(** The terms the loan route lets through. *)
Definition accepted_terms (l : Loan.row) : Prop :=
  (of_Z 0 <? Loan.principal_amount l)%js = true /\
  (of_Z 0 <? Loan.loan_period_years l)%js = true /\
  (of_Z 0 <=? Loan.interest_rate l)%js = true.

(** What the constraints of the schema and the checks of the routes keep
    true of the three tables. *)
Record integrity (db : DB) : Prop := mkIntegrity {
  int_customers : NoDup (map Customer.customer_id (customers db));
  int_names : forall c, In c (customers db) -> Customer.name c = None;
  int_owner : forall l, In l (loans db) ->
                In (Loan.customer_id l) (map Customer.customer_id (customers db));
  int_terms : forall l, In l (loans db) -> accepted_terms l /\ origination_consistent l;
  int_payment_ids : NoDup (map Payment.payment_id (payments db));
  int_types : forall p, In p (payments db) ->
                Payment.payment_type p = "EMI" \/ Payment.payment_type p = "LUMP_SUM";
  int_amounts : forall p, In p (payments db) -> (of_Z 0 <=? Payment.amount p)%js = true
}.

(** Zero or more, or [NaN]. *)
Definition not_negative (x : num) : Prop :=
  isNaN x = true \/ (of_Z 0 <=? x)%js = true.

(* ================================================================== *)
(** ** Facts about numbers *)
(* ================================================================== *)

Example round2_0_004 : round2 (Fin (4 # 1000)) = Fin 0.
Proof. vm_compute. reflexivity. Qed.

Example round2_0_005 : round2 (Fin (5 # 1000)) = Fin (1 # 100).
Proof. vm_compute. reflexivity. Qed.

Example emi_scenario :
  round2 (SI_A (computeSI (of_Z 100000) (of_Z 1) (of_Z 10)) / (of_Z 1 * of_Z 12))%js
  = Fin (916667 # 100).
Proof. vm_compute. reflexivity. Qed.

Section NumberFacts.

Lemma Qleb_spec (a b : Q) : Qleb a b = true <-> a <= b.
Proof. unfold Qleb, Qle. apply Z.leb_le. Qed.

Lemma Qltb_spec (a b : Q) : Qltb a b = true <-> a < b.
Proof. unfold Qltb, Qlt. apply Z.ltb_lt. Qed.

Lemma Qleb_false (a b : Q) : Qleb a b = false <-> b < a.
Proof. unfold Qleb, Qlt. apply Z.leb_gt. Qed.

Lemma Qis_zero_spec (q : Q) : Qis_zero q = true <-> q == 0.
Proof.
  unfold Qis_zero, Qeq. simpl. rewrite Z.eqb_eq. split; intros H; lia.
Qed.

Lemma Qis_pos_spec (q : Q) : Qis_pos q = true <-> 0 < q.
Proof.
  unfold Qis_pos, Qlt. simpl. rewrite Z.ltb_lt. split; intros H; lia.
Qed.

Lemma Qis_zero_false (q : Q) : Qis_zero q = false <-> ~ q == 0.
Proof.
  rewrite <- Qis_zero_spec. destruct (Qis_zero q); split; congruence.
Qed.

(** Two reduced fractions that denote the same number are the same term. *)
Lemma Fin_Qred_eq (a b : Q) : a == b -> Fin (Qred a) = Fin (Qred b).
Proof. intros H. f_equal. now apply Qred_complete. Qed.

Lemma add_comm (x y : num) : (x + y)%js = (y + x)%js.
Proof.
  destruct x, y; cbn [add]; try reflexivity.
  apply Fin_Qred_eq. ring.
Qed.

Lemma add_assoc (x y z : num) : (x + (y + z))%js = ((x + y) + z)%js.
Proof.
  destruct x, y, z; cbn [add]; try reflexivity.
  apply Fin_Qred_eq. rewrite !Qred_correct. ring.
Qed.

(** The floor of a number between two consecutive integers. *)
Lemma Qfloor_between (x : Q) (k : Z) :
  inject_Z k <= x -> x < inject_Z (k + 1) -> Qfloor x = k.
Proof.
  intros Hlo Hhi.
  pose proof (Qfloor_le x) as Hf1.
  pose proof (Qlt_floor x) as Hf2.
  assert (inject_Z (Qfloor x) < inject_Z (k + 1)) as H1
    by (eapply Qle_lt_trans; eassumption).
  assert (inject_Z k < inject_Z (Qfloor x + 1)) as H2
    by (eapply Qle_lt_trans; eassumption).
  rewrite <- Zlt_Qlt in H1, H2. lia.
Qed.

Lemma cents_plus (a b : Q) : cents a -> cents b -> cents (a + b).
Proof.
  intros [k Hk] [j Hj]. exists (k + j)%Z. rewrite Hk, Hj.
  unfold Qeq, Qplus. simpl. lia.
Qed.

Lemma cents_minus (a b : Q) : cents a -> cents b -> cents (a - b).
Proof.
  intros [k Hk] [j Hj]. exists (k - j)%Z. rewrite Hk, Hj.
  unfold Qeq, Qminus, Qplus, Qopp. simpl. lia.
Qed.

Lemma cents_Qred (a : Q) : cents a -> cents (Qred a).
Proof. intros [k Hk]. exists k. now rewrite Qred_correct. Qed.

Lemma cents_0 : cents 0.
Proof. exists 0%Z. reflexivity. Qed.

Lemma round2_Fin (q : Q) :
  round2 (Fin q) = Fin (Qred (inject_Z (round2_cents q) / inject_Z 100)).
Proof. reflexivity. Qed.

Lemma round2_Fin_cents (q : Q) : exists c, round2 (Fin q) = Fin c /\ cents c.
Proof.
  rewrite round2_Fin. eexists. split; [reflexivity|].
  apply cents_Qred. exists (round2_cents q).
  unfold Qeq, Qdiv, Qmult, Qinv, inject_Z. simpl. lia.
Qed.

(** [round2] leaves an amount in whole cents as it is. *)
Lemma round2_of_cents (q : Q) : cents q -> round2 (Fin q) = Fin (Qred q).
Proof.
  intros [k Hk]. rewrite round2_Fin.
  assert (round2_cents q = k) as ->.
  { unfold round2_cents. apply Qfloor_between.
    - rewrite !Qred_correct, Hk.
      unfold Qle, Qplus, Qmult, inject_Z. simpl. lia.
    - rewrite !Qred_correct, Hk.
      unfold Qlt, Qplus, Qmult, inject_Z. simpl. lia. }
  apply Fin_Qred_eq. rewrite Hk.
  unfold Qeq, Qdiv, Qmult, Qinv, inject_Z. simpl. lia.
Qed.

End NumberFacts.

(* ================================================================== *)
(** ** Origination *)
(* ================================================================== *)

Section Origination.

Lemma le_zero_of_pos (p : Q) : 0 < p -> (Fin p <=? of_Z 0)%js = false.
Proof.
  intros Hp. cbn [le of_Z]. apply Qleb_false. exact Hp.
Qed.

Lemma lt_zero_of_nonneg (r : Q) : 0 <= r -> (Fin r <? of_Z 0)%js = false.
Proof.
  intros Hr. cbn [lt of_Z].
  destruct (Qltb r (inject_Z 0)) eqn:E; [|reflexivity].
  apply Qltb_spec in E. change (inject_Z 0) with 0 in E. lra.
Qed.

Lemma div_by_100 (a : Q) : (Fin a / of_Z 100)%js = Fin (Qred (a / inject_Z 100)).
Proof. reflexivity. Qed.

(** The interest as the program computes it, [P * N * (Rpct / 100.0)], is
    [P * N * Rpct / 100]. *)
Lemma computeSI_interest (p n r : Q) :
  SI_I (computeSI (Fin p) (Fin n) (Fin r)) = (Fin p * Fin n * Fin r / of_Z 100)%js.
Proof.
  unfold computeSI. cbn [SI_I]. rewrite div_by_100. cbn [mul].
  rewrite div_by_100. apply Fin_Qred_eq. rewrite !Qred_correct.
  unfold Qdiv. ring.
Qed.

Lemma computeSI_total (P N R : num) :
  SI_A (computeSI P N R) = (P + SI_I (computeSI P N R))%js.
Proof. reflexivity. Qed.

Lemma loans_upsertCustomer (now : timestamp) (c : string) (db : DB) :
  loans (upsertCustomer now c db) = loans db.
Proof.
  unfold upsertCustomer. destruct (find _ _); reflexivity.
Qed.

Lemma payments_upsertCustomer (now : timestamp) (c : string) (db : DB) :
  payments (upsertCustomer now c db) = payments db.
Proof.
  unfold upsertCustomer. destruct (find _ _); reflexivity.
Qed.

Lemma find_none_existsb {A : Type} (f : A -> bool) (l : list A) :
  find f l = None -> existsb f l = false.
Proof.
  induction l as [|a l IH]; cbn; [reflexivity|].
  destruct (f a); [discriminate|]. exact IH.
Qed.

Lemma existsb_false_find {A : Type} (f : A -> bool) (l : list A) :
  existsb f l = false -> find f l = None.
Proof.
  induction l as [|a l IH]; cbn; [reflexivity|].
  destruct (f a); [discriminate|]. exact IH.
Qed.

Lemma find_app_new {A : Type} (f : A -> bool) (l : list A) (x : A) :
  find f l = None -> f x = true -> find f (l ++ [x]) = Some x.
Proof.
  induction l as [|a l IH]; cbn; intros Hn Hx.
  - now rewrite Hx.
  - destruct (f a); [discriminate|]. now apply IH.
Qed.

(** What [insert_loan] does when no column is [NaN] and the key is new. *)
Lemma insert_loan_ok (now : timestamp) (id c : string) (P R N total emi : num) (db : DB) :
  isNaN P = false -> isNaN R = false -> isNaN N = false ->
  isNaN total = false -> isNaN emi = false ->
  select_loan id db = None ->
  insert_loan now id c P R N total emi db =
  Ok (mkDB (customers db)
           (loans db ++ [Loan.mk id c P R N total emi ACTIVE now])
           (payments db)).
Proof.
  intros HP HR HN Ht He Hfresh. unfold insert_loan.
  rewrite HP, HR, HN, Ht, He. cbn [orb].
  unfold select_loan in Hfresh. now rewrite (find_none_existsb _ _ Hfresh).
Qed.

Lemma round2_isNaN_Fin (q : Q) : isNaN (round2 (Fin q)) = false.
Proof. rewrite round2_Fin. reflexivity. Qed.

End Origination.



(* ================================================================== *)
(** ** Derived figures *)
(* ================================================================== *)

Section Derivation.

Lemma fold_left_add_sum (l : list num) :
  fold_left add l (Fin 0) = sum_amounts l.
Proof.
  unfold sum_amounts. apply fold_symmetric.
  - intros x y z. apply add_assoc.
  - intros y. apply add_comm.
Qed.

(** The query for the amount paid gives the sum of the recorded amounts. *)
Lemma select_paid_sum (loanId : string) (db : DB) :
  isNaN (sum_amounts (amounts_of loanId db)) = false ->
  select_paid loanId db = sum_amounts (amounts_of loanId db).
Proof.
  unfold select_paid, amounts_of, SUM. intros Hnan.
  destruct (map Payment.amount (payments_of loanId db)) as [|a l] eqn:E.
  - reflexivity.
  - rewrite fold_left_add_sum. unfold sql_real. rewrite Hnan. reflexivity.
Qed.

Lemma totalsForLoan_found (loanId : string) (db : DB) (loan : Loan.row) :
  select_loan loanId db = Some loan ->
  totalsForLoan loanId db =
  Ok (mkTotals loan (round2 (select_paid loanId db))
        (balance_due loan (select_paid loanId db))
        (emis_left loan (balance_due loan (select_paid loanId db)))).
Proof.
  intros H. unfold totalsForLoan, getLoanOr404. rewrite H. reflexivity.
Qed.

Lemma totalsForLoan_missing (loanId : string) (db : DB) :
  select_loan loanId db = None ->
  totalsForLoan loanId db = Throw (HttpError 404 "Loan not found").
Proof.
  intros H. unfold totalsForLoan, getLoanOr404. rewrite H. reflexivity.
Qed.

(** How a payment call goes: it replies an error and leaves the store as it
    was, or it appends one row, recomputes the totals over the new history
    and marks the loan paid off when the balance is gone. *)
Lemma post_payments_cases (uuid : string) (now : timestamp) (loanId : string)
    (req : PaymentReq.t) (db : DB) :
  (snd (post_payments uuid now loanId req db) = db /\
   res_status (fst (post_payments uuid now loanId req db)) <> Http 200)
  \/
  (exists loan a ty t,
     select_loan loanId db = Some loan /\
     Loan.status loan = ACTIVE /\
     PaymentReq.amount req = Some a /\ bad_amount a = false /\
     PaymentReq.payment_type req = Some ty /\ bad_payment_type ty = false /\
     isNaN (round2 a) = false /\
     let db1 := with_payment (new_payment uuid now loanId a ty db) db in
     totalsForLoan loanId db1 = Ok t /\
     post_payments uuid now loanId req db =
       (mkResponse (Http 200)
          (JObj [("payment_id", JStr uuid);
                 ("loan_id", JStr loanId);
                 ("message", JStr "Payment recorded successfully");
                 ("remaining_balance", JNum (t_balance t));
                 ("emis_left", JNum (t_emisLeft t))]),
        if (t_balance t <=? of_Z 0)%js then update_paid_off loanId db1 else db1)).
Proof.
  unfold post_payments, getLoanOr404.
  destruct (select_loan loanId db) as [loan|] eqn:Hl;
    [|left; split; [reflexivity|discriminate]].
  destruct (PaymentReq.amount req) as [a|] eqn:Ha;
    [|left; split; [reflexivity|discriminate]].
  destruct (bad_amount a) eqn:Hbad; [left; split; [reflexivity|discriminate]|].
  destruct (PaymentReq.payment_type req) as [ty|] eqn:Hty;
    [|left; split; [reflexivity|discriminate]].
  destruct (bad_payment_type ty) eqn:Hbt; [left; split; [reflexivity|discriminate]|].
  destruct (Loan.status loan) eqn:Hst; cbn [loan_status_eqb];
    [|left; split; [reflexivity|discriminate]].
  unfold insert_payment, Number.
  destruct (isNaN (round2 a)) eqn:Hnan;
    [left; split; [reflexivity|cbn; discriminate]|].
  destruct (existsb _ (payments db)) eqn:Hpk;
    [left; split; [reflexivity|cbn; discriminate]|].
  right. exists loan, a, ty.
  fold (new_payment uuid now loanId a ty db).
  fold (with_payment (new_payment uuid now loanId a ty db) db).
  assert (Hl1 : select_loan loanId (with_payment (new_payment uuid now loanId a ty db) db)
                = Some loan) by exact Hl.
  rewrite (totalsForLoan_found _ _ _ Hl1).
  eexists. repeat (split; [first [eassumption | reflexivity]|]).
  cbn [t_balance t_emisLeft negb andb]. rewrite andb_true_r. reflexivity.
Qed.

End Derivation.

Section StatusUpdate.

(** The row [UPDATE loans SET status='PAID_OFF' WHERE loan_id = ?] leaves
    in the place of [l]. *)
Lemma find_map_invariant {A : Type} (f : A -> bool) (g : A -> A) (l : list A) :
  (forall x, f (g x) = f x) ->
  find f (map g l) = option_map g (find f l).
Proof.
  intros Hinv. induction l as [|a l IH]; cbn; [reflexivity|].
  rewrite Hinv. destruct (f a); [reflexivity|exact IH].
Qed.

Lemma select_loan_update (id id' : string) (db : DB) :
  select_loan id' (update_paid_off id db) =
  option_map (fun l => if String.eqb (Loan.loan_id l) id
                       then Loan.set_status PAID_OFF l else l)
             (select_loan id' db).
Proof.
  unfold select_loan, update_paid_off. cbn [loans].
  apply find_map_invariant. intros x.
  destruct (String.eqb (Loan.loan_id x) id); reflexivity.
Qed.

Lemma select_loan_id (id : string) (db : DB) (l : Loan.row) :
  select_loan id db = Some l -> Loan.loan_id l = id.
Proof.
  unfold select_loan. intros H. apply find_some in H. destruct H as [_ H].
  now apply String.eqb_eq.
Qed.

Lemma select_loan_In (id : string) (db : DB) (l : Loan.row) :
  select_loan id db = Some l -> In l (loans db).
Proof.
  unfold select_loan. intros H. now apply find_some in H.
Qed.

Lemma select_paid_update (id id' : string) (db : DB) :
  select_paid id' (update_paid_off id db) = select_paid id' db.
Proof. reflexivity. Qed.

(** After a payment is accepted the loan is marked paid off exactly when
    the balance over the new history is gone. *)
Lemma payment_settles_iff (uuid : string) (now : timestamp) (loanId : string)
    (req : PaymentReq.t) (db db' : DB) (body : json) :
  post_payments uuid now loanId req db = (mkResponse (Http 200) body, db') ->
  exists t', totalsForLoan loanId db' = Ok t' /\
             (Loan.status (t_loan t') = PAID_OFF <-> (t_balance t' <=? of_Z 0)%js = true).
Proof.
  intros Hpost.
  destruct (post_payments_cases uuid now loanId req db) as [[_ Hne]|H].
  { rewrite Hpost in Hne. now contradiction Hne. }
  destruct H as (loan & a & ty & t & Hl & Hst & _ & _ & _ & _ & _ & Ht & Heq).
  rewrite Hpost in Heq. injection Heq as _ Hdb'.
  set (db1 := with_payment (new_payment uuid now loanId a ty db) db) in *.
  assert (Hl1 : select_loan loanId db1 = Some loan) by exact Hl.
  rewrite (totalsForLoan_found _ _ _ Hl1) in Ht.
  assert (Hb : t_balance t = balance_due loan (select_paid loanId db1))
    by (injection Ht as <-; reflexivity).
  rewrite Hb in Hdb'. clear Ht Hb.
  destruct (balance_due loan (select_paid loanId db1) <=? of_Z 0)%js eqn:Hbal.
  - assert (Hl' : select_loan loanId db' = Some (Loan.set_status PAID_OFF loan)).
    { rewrite Hdb', select_loan_update, Hl1. cbn [option_map].
      rewrite (select_loan_id _ _ _ Hl1), String.eqb_refl. reflexivity. }
    rewrite (totalsForLoan_found _ _ _ Hl'). eexists. split; [reflexivity|].
    cbn [t_loan t_balance]. rewrite Hdb', select_paid_update.
    change (balance_due (Loan.set_status PAID_OFF loan) (select_paid loanId db1))
      with (balance_due loan (select_paid loanId db1)).
    split; [intros _; exact Hbal|reflexivity].
  - subst db'. rewrite (totalsForLoan_found _ _ _ Hl1). eexists. split; [reflexivity|].
    cbn [t_loan t_balance]. rewrite Hbal, Hst. split; discriminate.
Qed.

End StatusUpdate.

(* ================================================================== *)
(** ** A zero installment *)
(* ================================================================== *)

Section ZeroInstallment.

Lemma lt_not_le (x y : num) : (x <? y)%js = true -> (y <=? x)%js = false.
Proof.
  destruct x, y; cbn [lt le]; try congruence.
  intros H. apply Qltb_spec in H. now apply Qleb_false.
Qed.

Lemma Qis_neg_zero (e : Q) : e == 0 -> Qis_neg e = false.
Proof.
  intros He. unfold Qis_neg. apply Z.ltb_ge.
  unfold Qeq in He. simpl in He. lia.
Qed.

(** A positive number over zero. *)
Lemma div_pos_by_zero (x : num) (e : Q) :
  (of_Z 0 <? x)%js = true -> e == 0 -> (x / Fin e)%js = PInf.
Proof.
  intros Hx He. destruct x as [b| | |]; cbn [lt of_Z] in Hx; try discriminate.
  - apply Qltb_spec in Hx. change (inject_Z 0) with 0 in Hx. cbn [div].
    apply Qis_zero_spec in He. rewrite He.
    assert (Qis_zero b = false) as -> by (apply Qis_zero_false; lra).
    apply Qis_pos_spec in Hx. rewrite Hx. reflexivity.
  - cbn [div]. rewrite (Qis_neg_zero e He). reflexivity.
Qed.

End ZeroInstallment.

(** C3, as the specification words it, fails: a loan of 0.01 over one year
    at no interest is stored with installment 0.00 and total 0.01; with
    nothing paid the balance is 0.01 and [totalsForLoan] divides it by the
    zero installment, so the count of remaining installments is
    [Infinity]. *)
Lemma zero_installment_counterexample :
  reachable one_cent_db /\
  exists t,
    totalsForLoan "L0" one_cent_db = Ok t /\
    Loan.monthly_emi (t_loan t) = Fin 0 /\
    t_balance t = Fin (1 # 100) /\
    t_emisLeft t = PInf.
Proof.
  split.
  - apply reachable_step. apply reachable_empty.
  - eexists. split; [reflexivity|]. repeat split.
Qed.

(** C3, amended. For a loan whose stored installment is zero, the count of
    remaining installments is 0 when the balance is [<= 0]; when the
    balance is positive no guard applies, the balance is divided by the zero
    installment and the count is [Infinity]. *)
Theorem zero_installment_count :
  forall (db : DB) (loanId : string) (t : totals) (e : Q),
    totalsForLoan loanId db = Ok t ->
    Loan.monthly_emi (t_loan t) = Fin e -> e == 0 ->
    ((t_balance t <=? of_Z 0)%js = true -> t_emisLeft t = of_Z 0) /\
    ((of_Z 0 <? t_balance t)%js = true -> t_emisLeft t = PInf).
Proof.
  intros db loanId t e Ht Hemi He.
  destruct (select_loan loanId db) as [loan|] eqn:Hl.
  - rewrite (totalsForLoan_found _ _ _ Hl) in Ht. injection Ht as <-.
    cbn [t_loan t_balance t_emisLeft] in *.
    set (b := balance_due loan (select_paid loanId db)).
    unfold emis_left. rewrite Hemi. split; intros Hb.
    + rewrite Hb. reflexivity.
    + rewrite (lt_not_le _ _ Hb), (div_pos_by_zero _ _ Hb He). reflexivity.
  - rewrite (totalsForLoan_missing _ _ Hl) in Ht. discriminate.
Qed.

Lemma zero_installment_count_witness :
  exists t, totalsForLoan "L0" one_cent_db = Ok t /\ t_emisLeft t = PInf.
Proof.
  eexists. split; [reflexivity|].
  refine (proj2 (zero_installment_count one_cent_db "L0" _ 0 eq_refl eq_refl _) _).
  - reflexivity.
  - reflexivity.
Defined.

(* ================================================================== *)
(** ** What a call does to the store *)
(* ================================================================== *)

Section Effects.

Lemma post_loans_cases (uuid : string) (now : timestamp) (req : LoanReq.t) (db : DB) :
  (loans (snd (post_loans uuid now req db)) = loans db /\
   payments (snd (post_loans uuid now req db)) = payments db)
  \/
  (exists cid P N R,
     LoanReq.customer_id req = Some cid /\ LoanReq.loan_amount req = Some P /\
     LoanReq.loan_period_years req = Some N /\
     LoanReq.interest_rate_yearly req = Some R /\
     select_loan uuid db = None /\
     isNaN (Loan.total_amount (new_loan uuid now cid P N R)) = false /\
     loans (snd (post_loans uuid now req db)) = loans db ++ [new_loan uuid now cid P N R] /\
     payments (snd (post_loans uuid now req db)) = payments db).
Proof.
  unfold post_loans.
  destruct (LoanReq.customer_id req) as [cid|]; [|left; split; reflexivity].
  destruct (LoanReq.loan_amount req) as [P|]; [|left; split; reflexivity].
  destruct (LoanReq.loan_period_years req) as [N|]; [|left; split; reflexivity].
  destruct (LoanReq.interest_rate_yearly req) as [R|]; [|left; split; reflexivity].
  destruct (String.eqb cid ""); [left; split; reflexivity|].
  destruct (_ || _ || _); [left; split; reflexivity|].
  unfold insert_loan, Number.
  destruct (isNaN P || isNaN R || isNaN N || isNaN (round2 (SI_A (computeSI P N R)))
            || isNaN (round2 (SI_A (computeSI P N R) / (N * of_Z 12))%js)) eqn:Hnan.
  { left. cbn [snd]. split;
      [apply loans_upsertCustomer|apply payments_upsertCustomer]. }
  destruct (existsb _ (loans (upsertCustomer now cid db))) eqn:Hpk.
  { left. cbn [snd]. split;
      [apply loans_upsertCustomer|apply payments_upsertCustomer]. }
  right. exists cid, P, N, R. cbn [snd loans payments].
  rewrite loans_upsertCustomer in *. rewrite payments_upsertCustomer.
  repeat (split; [reflexivity|]).
  split; [now apply existsb_false_find|].
  split; [|split; reflexivity].
  cbn [new_loan Loan.total_amount].
  repeat (apply orb_false_elim in Hnan; destruct Hnan as [Hnan ?]).
  assumption.
Qed.

Lemma loans_with_payment (p : Payment.row) (db : DB) :
  loans (with_payment p db) = loans db.
Proof. reflexivity. Qed.

Lemma loans_update_paid_off (loanId : string) (db : DB) :
  loans (update_paid_off loanId db) = map (mark_paid_off loanId) (loans db).
Proof. reflexivity. Qed.

Lemma same_terms_refl (l : Loan.row) : same_terms l l.
Proof. repeat split. Qed.

Lemma same_terms_mark (loanId : string) (l : Loan.row) :
  same_terms l (mark_paid_off loanId l).
Proof.
  unfold mark_paid_off. destruct (String.eqb _ _); repeat split.
Qed.

Lemma mark_paid_off_paid (loanId : string) (l : Loan.row) :
  Loan.status l = PAID_OFF -> mark_paid_off loanId l = l.
Proof.
  unfold mark_paid_off. intros H. destruct (String.eqb _ _); [|reflexivity].
  destruct l. cbn in *. now subst.
Qed.

Lemma mark_paid_off_status (loanId : string) (l : Loan.row) :
  Loan.status (mark_paid_off loanId l) <> Loan.status l ->
  Loan.loan_id l = loanId.
Proof.
  unfold mark_paid_off. destruct (String.eqb_spec (Loan.loan_id l) loanId); intros H.
  - assumption.
  - now contradiction H.
Qed.

(** The loans after a call: the loans before it, each either as it was or
    marked paid off, then the loans the call created. *)
Lemma handle_loans (r : request) (db : DB) :
  exists (g : Loan.row -> Loan.row) (created : list Loan.row),
    loans (snd (handle r db)) = map g (loans db) ++ created /\
    Forall (fun l => Loan.status l = ACTIVE) created /\
    forall l,
      same_terms l (g l) /\
      (Loan.status l = PAID_OFF -> g l = l) /\
      (Loan.status (g l) <> Loan.status l ->
       exists uuid now req body a ty,
         r = PostPayments uuid now (Loan.loan_id l) req /\
         fst (handle r db) = mkResponse (Http 200) body /\
         payments (snd (handle r db)) =
           payments db ++ [new_payment uuid now (Loan.loan_id l) a ty db]).
Proof.
  destruct r as [uuid now req|uuid now loanId req|loanId|customerId|]; cbn [handle snd fst].
  - destruct (post_loans_cases uuid now req db) as [[Hl _]|H].
    + exists (fun l => l), []. rewrite Hl, map_id, app_nil_r.
      split; [reflexivity|]. split; [constructor|].
      intros l. split; [apply same_terms_refl|]. split; [reflexivity|].
      intros H. now contradiction H.
    + destruct H as (cid & P & N & R & _ & _ & _ & _ & _ & _ & Hl & _).
      exists (fun l => l), [new_loan uuid now cid P N R]. rewrite Hl, map_id.
      split; [reflexivity|]. split; [repeat constructor|].
      intros l. split; [apply same_terms_refl|]. split; [reflexivity|].
      intros H. now contradiction H.
  - destruct (post_payments_cases uuid now loanId req db) as [[Hdb _]|H].
    + exists (fun l => l), []. rewrite Hdb, map_id, app_nil_r.
      split; [reflexivity|]. split; [constructor|].
      intros l. split; [apply same_terms_refl|]. split; [reflexivity|].
      intros H. now contradiction H.
    + destruct H as (loan & a & ty & t & _ & _ & _ & _ & _ & _ & _ & _ & Heq).
      rewrite Heq. cbn [snd fst].
      destruct (t_balance t <=? of_Z 0)%js.
      * exists (mark_paid_off loanId), [].
        rewrite loans_update_paid_off, loans_with_payment, app_nil_r.
        split; [reflexivity|]. split; [constructor|].
        intros l. split; [apply same_terms_mark|].
        split; [apply mark_paid_off_paid|].
        intros H. apply mark_paid_off_status in H. subst loanId.
        exists uuid, now, req. eexists. exists a, ty.
        split; [reflexivity|]. split; reflexivity.
      * exists (fun l => l), []. rewrite loans_with_payment, map_id, app_nil_r.
        split; [reflexivity|]. split; [constructor|].
        intros l. split; [apply same_terms_refl|]. split; [reflexivity|].
        intros H. now contradiction H.
  - exists (fun l => l), []. rewrite map_id, app_nil_r.
    split; [reflexivity|]. split; [constructor|].
    intros l. split; [apply same_terms_refl|]. split; [reflexivity|].
    intros H. now contradiction H.
  - exists (fun l => l), []. rewrite map_id, app_nil_r.
    split; [reflexivity|]. split; [constructor|].
    intros l. split; [apply same_terms_refl|]. split; [reflexivity|].
    intros H. now contradiction H.
  - exists (fun l => l), []. rewrite map_id, app_nil_r.
    split; [reflexivity|]. split; [constructor|].
    intros l. split; [apply same_terms_refl|]. split; [reflexivity|].
    intros H. now contradiction H.
Qed.

End Effects.

(** C4. On a loan whose status is PAID_OFF a payment call inserts nothing:
    the store after the call is the store before it, payments and loan
    included, and the reply is an error; for a payment that passes the
    checks of amount and type the reply is [LoanAlreadySettled] (409). *)
Theorem paid_off_rejects_payment :
  forall (uuid : string) (now : timestamp) (loanId : string) (req : PaymentReq.t)
         (db : DB) (loan : Loan.row),
    select_loan loanId db = Some loan ->
    Loan.status loan = PAID_OFF ->
    snd (post_payments uuid now loanId req db) = db /\
    res_status (fst (post_payments uuid now loanId req db)) <> Http 200 /\
    forall a ty,
      PaymentReq.amount req = Some a -> bad_amount a = false ->
      PaymentReq.payment_type req = Some ty -> bad_payment_type ty = false ->
      fst (post_payments uuid now loanId req db) = LoanAlreadySettled.
Proof.
  intros uuid now loanId req db loan Hl Hst.
  unfold post_payments, getLoanOr404. rewrite Hl, Hst. cbn [loan_status_eqb].
  destruct (PaymentReq.amount req) as [a|].
  2:{ repeat split; try discriminate. }
  destruct (bad_amount a) eqn:Ha.
  { repeat split; try discriminate. intros a' ty [= <-]. congruence. }
  destruct (PaymentReq.payment_type req) as [ty|].
  2:{ repeat split; try discriminate. }
  destruct (bad_payment_type ty) eqn:Hty.
  { repeat split; try discriminate. intros a' ty' _ _ [= <-]. congruence. }
  repeat split; discriminate.
Qed.

Lemma paid_off_rejects_payment_witness :
  post_payments "T3" 40 "L1" (payment_request (Fin 1) "EMI") (snd scenario_pay2)
  = (LoanAlreadySettled, snd scenario_pay2).
Proof.
  pose proof (paid_off_rejects_payment "T3" 40%Z "L1" (payment_request (Fin 1) "EMI")
                (snd scenario_pay2)
                (Loan.mk "L1" "alice" (Fin 100000) (Fin 10) (Fin 1) (Fin 110000)
                         (Fin (916667 # 100)) PAID_OFF 10)
                eq_refl eq_refl) as (Hdb & _ & Hreply).
  specialize (Hreply (Fin 1) "EMI" eq_refl eq_refl eq_refl eq_refl).
  rewrite <- Hdb at 2. rewrite <- Hreply. apply surjective_pairing.
Defined.

(* ================================================================== *)
(** ** The terms of a loan never change *)
(* ================================================================== *)

Section Frame.

Lemma same_terms_trans (a b c : Loan.row) :
  same_terms a b -> same_terms b c -> same_terms a c.
Proof.
  unfold same_terms. intros H1 H2.
  repeat match goal with H : _ /\ _ |- _ => destruct H end.
  repeat split; congruence.
Qed.

Lemma run_cons (r : request) (rs : list request) (db : DB) :
  run (r :: rs) db = run rs (snd (handle r db)).
Proof. reflexivity. Qed.

(** Over any sequence of calls the loans of the store keep their place and
    their terms; new loans come after them. *)
Lemma run_loans (rs : list request) :
  forall db, exists (g : Loan.row -> Loan.row) (created : list Loan.row),
    loans (run rs db) = map g (loans db) ++ created /\
    forall l, same_terms l (g l).
Proof.
  induction rs as [|r rs IH]; intros db.
  - exists (fun l => l), []. cbn [run fold_left]. rewrite map_id, app_nil_r.
    split; [reflexivity|apply same_terms_refl].
  - rewrite run_cons.
    destruct (handle_loans r db) as (g1 & c1 & H1 & _ & Hg1).
    destruct (IH (snd (handle r db))) as (g2 & c2 & H2 & Hg2).
    exists (fun l => g2 (g1 l)), (map g2 c1 ++ c2).
    rewrite H2, H1, map_app, map_map, app_assoc. split; [reflexivity|].
    intros l. eapply same_terms_trans; [apply Hg1|apply Hg2].
Qed.

End Frame.

(** C10. Whatever calls follow the creation of a loan, its row keeps its
    principal, rate, term, total payable, installment, customer and creation
    time: only [status] can differ.  And a call changes the status of a loan
    only if it is a payment call on that loan that is accepted and appends
    its payment row. *)
Theorem loan_terms_immutable :
  forall (db : DB),
    (forall rs, exists (g : Loan.row -> Loan.row) (created : list Loan.row),
        loans (run rs db) = map g (loans db) ++ created /\
        forall l, same_terms l (g l)) /\
    (forall r, exists (g : Loan.row -> Loan.row) (created : list Loan.row),
        loans (snd (handle r db)) = map g (loans db) ++ created /\
        forall l,
          Loan.status (g l) <> Loan.status l ->
          exists uuid now req body a ty,
            r = PostPayments uuid now (Loan.loan_id l) req /\
            fst (handle r db) = mkResponse (Http 200) body /\
            payments (snd (handle r db)) =
              payments db ++ [new_payment uuid now (Loan.loan_id l) a ty db]).
Proof.
  intros db. split.
  - intros rs. apply run_loans.
  - intros r. destruct (handle_loans r db) as (g & created & H & _ & Hg).
    exists g, created. split; [exact H|]. intros l. apply Hg.
Qed.

(* ================================================================== *)
(** ** Stored payment amounts *)
(* ================================================================== *)

(** The first half of C6 holds: an amount that is not greater than zero is
    refused with [InvalidAmount] and nothing is stored. *)
Lemma nonpositive_amount_rejected (uuid : string) (now : timestamp) (loanId : string)
    (req : PaymentReq.t) (db : DB) (loan : Loan.row) (a : num) :
  select_loan loanId db = Some loan ->
  PaymentReq.amount req = Some a ->
  (of_Z 0 <? a)%js = false ->
  post_payments uuid now loanId req db = (InvalidAmount, db).
Proof.
  intros Hl Ha Hle. unfold post_payments, getLoanOr404. rewrite Hl, Ha.
  assert (bad_amount a = true) as ->; [|reflexivity].
  unfold bad_amount. destruct a as [q| | |]; cbn [falsy le lt of_Z] in *;
    try reflexivity; try discriminate.
  apply orb_true_iff. right. apply Qleb_spec.
  destruct (Qltb (inject_Z 0) q) eqn:E; [discriminate|].
  unfold Qltb in E. apply Z.ltb_ge in E. exact E.
Qed.

(** C6 fails on the code: a payment of 0.004 on the active loan of the
    scenario passes the test [amount <= 0], is accepted with 200, and is
    stored rounded, with amount 0. *)
Lemma sub_cent_payment_stored_as_zero :
  reachable scenario_db0 /\
  res_status (fst (handle sub_cent_payment scenario_db0)) = Http 200 /\
  payments (snd (handle sub_cent_payment scenario_db0))
  = [Payment.mk 1 "T1" "L1" (Fin 0) "EMI" 20].
Proof.
  split; [|split].
  - apply (reachable_step empty_db
             (PostLoans "L1" 10 (loan_request "alice" (of_Z 100000) (of_Z 1) (of_Z 10)))).
    apply reachable_empty.
  - reflexivity.
  - reflexivity.
Qed.

(* ================================================================== *)
(** ** Status and cumulative payments *)
(* ================================================================== *)

Section Money.

Lemma round2_PInf : round2 PInf = PInf.
Proof. reflexivity. Qed.

Lemma round2_Fin_inv (x : num) (t : Q) : round2 x = Fin t -> cents t.
Proof.
  destruct x as [q| | |]; try discriminate.
  destruct (round2_Fin_cents q) as (c & Hc & Hcents).
  rewrite Hc. intros [= <-]. exact Hcents.
Qed.

Lemma money_round2_amount (a : num) : bad_amount a = false -> money (round2 a).
Proof.
  destruct a as [q| | |]; try discriminate; intros _.
  - right. destruct (round2_Fin_cents q) as (c & Hc & Hcents). now exists c.
  - left. reflexivity.
Qed.

Lemma money_add (x y : num) : money x -> money y -> money (x + y)%js.
Proof.
  intros [->|(a & -> & Ha)] [->|(b & -> & Hb)]; cbn [add];
    try (left; reflexivity).
  right. eexists. split; [reflexivity|]. now apply cents_Qred, cents_plus.
Qed.

Lemma money_sum (l : list num) : Forall money l -> money (sum_amounts l).
Proof.
  induction 1 as [|x l Hx _ IH]; cbn [sum_amounts fold_right].
  - right. exists 0. split; [reflexivity|apply cents_0].
  - apply money_add; assumption.
Qed.

Lemma money_not_NaN (x : num) : money x -> isNaN x = false.
Proof. intros [->|(a & -> & _)]; reflexivity. Qed.

(** The test [balance <= 0] of the payment route: with a total in cents
    and cumulative payments in cents it says that the payments reach the
    total. *)
Lemma settle_test (loan : Loan.row) (t : Q) (s : num) :
  Loan.total_amount loan = Fin t -> cents t -> money s ->
  (balance_due loan s <=? of_Z 0)%js = (Fin t <=? s)%js.
Proof.
  intros Ht Hc [->|(q & -> & Hq)]; unfold balance_due; rewrite Ht.
  - reflexivity.
  - cbn [sub].
    rewrite (round2_of_cents (Qred (t - q)))
      by now apply cents_Qred, cents_minus.
    set (v := Qred (Qred (t - q))).
    assert (Hv : v == t - q) by (unfold v; now rewrite !Qred_correct).
    clearbody v.
    unfold of_Z. change (inject_Z 0) with 0. cbn [Math_max le].
    destruct (Qleb 0 v) eqn:E1; cbn [le]; destruct (Qleb t q) eqn:E2.
    + apply Qleb_spec. apply Qleb_spec in E2. lra.
    + apply Qleb_false. apply Qleb_false in E2. lra.
    + reflexivity.
    + apply Qleb_false in E1, E2. lra.
Qed.

End Money.

Section Invariant.

Lemma amounts_of_other (p : Payment.row) (id : string) (db : DB) :
  Payment.loan_id p <> id ->
  amounts_of id (with_payment p db) = amounts_of id db.
Proof.
  intros Hne. unfold amounts_of, payments_of, with_payment. cbn [payments].
  rewrite filter_app. cbn [filter].
  destruct (String.eqb_spec (Payment.loan_id p) id); [contradiction|].
  now rewrite app_nil_r.
Qed.

Lemma amounts_of_fresh (id : string) (db : DB) :
  (forall p, In p (payments db) -> Payment.loan_id p <> id) ->
  amounts_of id db = [].
Proof.
  intros H. unfold amounts_of, payments_of.
  induction (payments db) as [|p ps IH]; cbn [filter map]; [reflexivity|].
  destruct (String.eqb_spec (Payment.loan_id p) id) as [E|_].
  - exfalso. apply (H p); [now left|exact E].
  - apply IH. intros q Hq. apply H. now right.
Qed.

Lemma amounts_money (id : string) (db : DB) :
  (forall p, In p (payments db) -> money (Payment.amount p)) ->
  Forall money (amounts_of id db).
Proof.
  intros H. unfold amounts_of, payments_of. apply Forall_forall.
  intros x Hx. apply in_map_iff in Hx. destruct Hx as (p & <- & Hp).
  apply filter_In in Hp. apply H, Hp.
Qed.

Lemma select_loan_none_ids (id : string) (db : DB) :
  select_loan id db = None -> ~ In id (map Loan.loan_id (loans db)).
Proof.
  unfold select_loan. intros Hnone Hin. apply in_map_iff in Hin.
  destruct Hin as (l & Hl & Hin).
  pose proof (find_none _ _ Hnone l Hin) as H. cbn in H.
  rewrite Hl, String.eqb_refl in H. discriminate.
Qed.

Lemma NoDup_ids_unique (ls : list Loan.row) (a b : Loan.row) :
  NoDup (map Loan.loan_id ls) -> In a ls -> In b ls ->
  Loan.loan_id a = Loan.loan_id b -> a = b.
Proof.
  induction ls as [|x ls IH]; cbn [map]; intros Hnd Ha Hb Hid; [contradiction|].
  apply NoDup_cons_iff in Hnd. destruct Hnd as [Hx Hnd].
  destruct Ha as [->|Ha], Hb as [->|Hb].
  - reflexivity.
  - exfalso. apply Hx. rewrite Hid. now apply in_map.
  - exfalso. apply Hx. rewrite <- Hid. now apply in_map.
  - now apply IH.
Qed.

Lemma map_id_mark (loanId : string) (ls : list Loan.row) :
  map Loan.loan_id (map (mark_paid_off loanId) ls) = map Loan.loan_id ls.
Proof.
  rewrite map_map. apply map_ext. intros l. unfold mark_paid_off.
  destruct (String.eqb _ _); reflexivity.
Qed.

Lemma store_inv_empty : store_inv empty_db.
Proof.
  constructor; cbn; try contradiction. constructor.
Qed.

(** The invariant looks at the loans and the payments only. *)
Lemma store_inv_ext (db db' : DB) :
  loans db' = loans db -> payments db' = payments db ->
  store_inv db -> store_inv db'.
Proof.
  intros Hl Hp [H1 H2 H3 H4 H5].
  assert (Hpaid : forall id, paid_to_date id db' = paid_to_date id db).
  { intros id. unfold paid_to_date, amounts_of, payments_of. now rewrite Hp. }
  constructor; rewrite ?Hl, ?Hp; try assumption.
  intros l t Hin Ht Hpos. rewrite Hpaid. now apply H5 with t.
Qed.

Lemma store_inv_new_loan (db db' : DB) (nl : Loan.row) :
  loans db' = loans db ++ [nl] -> payments db' = payments db ->
  select_loan (Loan.loan_id nl) db = None ->
  Loan.status nl = ACTIVE ->
  (forall t, Loan.total_amount nl = Fin t -> cents t) ->
  store_inv db -> store_inv db'.
Proof.
  intros Hl Hp Hfresh Hact Htot [H1 H2 H3 H4 H5].
  assert (Hpaid : forall id, paid_to_date id db' = paid_to_date id db).
  { intros id. unfold paid_to_date, amounts_of, payments_of. now rewrite Hp. }
  apply select_loan_none_ids in Hfresh.
  constructor; rewrite ?Hl, ?Hp.
  - rewrite map_app. apply NoDup_app; [assumption|repeat constructor; intros []|].
    intros a Ha [<-|[]]. contradiction.
  - intros p Hin. rewrite map_app. apply in_or_app. left. now apply H2.
  - assumption.
  - intros l t Hin Ht. apply in_app_or in Hin. destruct Hin as [Hin|[<-|[]]].
    + now apply H4 with l.
    + now apply Htot.
  - intros l t Hin Ht Hpos. rewrite Hpaid.
    apply in_app_or in Hin. destruct Hin as [Hin|[<-|[]]].
    + now apply H5 with t.
    + rewrite Hact. unfold paid_to_date.
      rewrite amounts_of_fresh.
      * rewrite Ht. cbn [sum_amounts fold_right le].
        split; [discriminate|]. intros Hle. apply Qleb_spec in Hle. lra.
      * intros p Hp' Heq. apply Hfresh. rewrite <- Heq. now apply H2.
Qed.

Lemma store_inv_payment (db : DB) (loanId : string) (loan : Loan.row)
    (np : Payment.row) :
  select_loan loanId db = Some loan ->
  Loan.status loan = ACTIVE ->
  Payment.loan_id np = loanId ->
  money (Payment.amount np) ->
  store_inv db ->
  let db1 := with_payment np db in
  store_inv (if (balance_due loan (select_paid loanId db1) <=? of_Z 0)%js
             then update_paid_off loanId db1 else db1).
Proof.
  intros Hsel Hact Hnp Hmoney [H1 H2 H3 H4 H5] db1.
  assert (Hin : In loan (loans db)) by now apply select_loan_In in Hsel.
  assert (Hid : Loan.loan_id loan = loanId) by now apply select_loan_id in Hsel.
  assert (Ham : forall p, In p (payments db1) -> money (Payment.amount p)).
  { intros p Hp. apply in_app_or in Hp. destruct Hp as [Hp|[<-|[]]];
      [now apply H3|assumption]. }
  assert (Href : forall p, In p (payments db1) ->
                           In (Payment.loan_id p) (map Loan.loan_id (loans db))).
  { intros p Hp. apply in_app_or in Hp. destruct Hp as [Hp|[<-|[]]];
      [now apply H2|]. rewrite Hnp, <- Hid. now apply in_map. }
  assert (Hsum : money (paid_to_date loanId db1)).
  { apply money_sum, amounts_money, Ham. }
  assert (Hpaid : select_paid loanId db1 = paid_to_date loanId db1).
  { apply select_paid_sum, money_not_NaN, Hsum. }
  assert (Hother : forall l t, In l (loans db) -> Loan.loan_id l <> loanId ->
            Loan.total_amount l = Fin t -> 0 < t ->
            (Loan.status l = PAID_OFF
             <-> (Loan.total_amount l <=? paid_to_date (Loan.loan_id l) db1)%js = true)).
  { intros l t Hl Hne Ht Hpos. unfold paid_to_date, db1.
    rewrite amounts_of_other by congruence. now apply H5 with t. }
  assert (Hsame : forall l, In l (loans db) -> Loan.loan_id l = loanId -> l = loan).
  { intros l Hl Hlid. apply (NoDup_ids_unique (loans db)); congruence. }
  destruct (balance_due loan (select_paid loanId db1) <=? of_Z 0)%js eqn:Hbal.
  - assert (Hls : loans (update_paid_off loanId db1)
                  = map (mark_paid_off loanId) (loans db)) by reflexivity.
    assert (Hps : payments (update_paid_off loanId db1) = payments db1) by reflexivity.
    constructor; rewrite ?Hls, ?Hps.
    + now rewrite map_id_mark.
    + rewrite map_id_mark. exact Href.
    + exact Ham.
    + intros l t Hl Ht.
      apply in_map_iff in Hl. destruct Hl as (l0 & <- & Hl0).
      apply H4 with l0; [assumption|].
      rewrite <- Ht. symmetry. apply (same_terms_mark loanId l0).
    + intros l t Hl Ht Hpos.
      apply in_map_iff in Hl. destruct Hl as (l0 & <- & Hl0).
      change (paid_to_date (Loan.loan_id (mark_paid_off loanId l0))
                (update_paid_off loanId db1))
        with (paid_to_date (Loan.loan_id (mark_paid_off loanId l0)) db1).
      destruct (same_terms_mark loanId l0) as (Eid & _ & _ & _ & _ & Etot & _).
      rewrite Eid, Etot. rewrite Etot in Ht.
      destruct (String.eqb_spec (Loan.loan_id l0) loanId) as [E|E].
      * assert (l0 = loan) as -> by now apply Hsame.
        unfold mark_paid_off. rewrite Hid, String.eqb_refl.
        cbn [Loan.status Loan.set_status].
        rewrite Ht, <- (settle_test loan t) by
          (try assumption; now apply H4 with loan).
        rewrite <- Hpaid. rewrite Hbal. split; reflexivity.
      * unfold mark_paid_off. destruct (String.eqb_spec (Loan.loan_id l0) loanId);
          [contradiction|]. now apply Hother with t.
  - constructor; cbn [loans payments].
    + exact H1.
    + exact Href.
    + exact Ham.
    + exact H4.
    + intros l t Hl Ht Hpos. change (loans db1) with (loans db) in Hl.
      destruct (String.eqb_spec (Loan.loan_id l) loanId) as [E|E].
      * assert (l = loan) as -> by now apply Hsame.
        rewrite Hid, Hact. rewrite Ht, <- (settle_test loan t) by
          (try assumption; now apply H4 with loan).
        rewrite <- Hpaid, Hbal. split; discriminate.
      * now apply Hother with t.
Qed.

(** Every call keeps the invariant. *)
Lemma store_inv_step (r : request) (db : DB) :
  store_inv db -> store_inv (snd (handle r db)).
Proof.
  intros Hinv.
  destruct r as [uuid now req|uuid now loanId req|loanId|customerId|]; cbn [handle snd];
    try assumption.
  - destruct (post_loans_cases uuid now req db) as [[Hl Hp]|H].
    + now apply (store_inv_ext db).
    + destruct H as (cid & P & N & R & _ & _ & _ & _ & Hfresh & Hnan & Hl & Hp).
      apply (store_inv_new_loan db _ (new_loan uuid now cid P N R)); try assumption.
      * reflexivity.
      * intros t. cbn [new_loan Loan.total_amount]. apply round2_Fin_inv.
  - destruct (post_payments_cases uuid now loanId req db) as [[Hdb _]|H].
    + now rewrite Hdb.
    + destruct H as (loan & a & ty & t & Hl & Hst & _ & Ha & _ & _ & _ & Ht & Heq).
      rewrite Heq. cbn [snd].
      set (db1 := with_payment (new_payment uuid now loanId a ty db) db) in *.
      assert (Hl1 : select_loan loanId db1 = Some loan) by exact Hl.
      rewrite (totalsForLoan_found _ _ _ Hl1) in Ht.
      assert (Hb : t_balance t = balance_due loan (select_paid loanId db1))
        by (injection Ht as <-; reflexivity).
      rewrite Hb.
      apply (store_inv_payment db loanId loan (new_payment uuid now loanId a ty db));
        try assumption.
      * reflexivity.
      * cbn [new_payment Payment.amount]. now apply money_round2_amount.
Qed.

Lemma reachable_inv (db : DB) : reachable db -> store_inv db.
Proof.
  induction 1 as [|db r _ IH]; [apply store_inv_empty|now apply store_inv_step].
Qed.

End Invariant.




(* ================================================================== *)
(** ** ORDER BY *)
(* ================================================================== *)

Section Sorting.

Context {A : Type} (leb : A -> A -> bool).

Lemma insert_sorted_perm (x : A) (l : list A) :
  Permutation (insert_sorted leb x l) (x :: l).
Proof.
  induction l as [|y l IH]; cbn [insert_sorted]; [reflexivity|].
  destruct (leb y x); [|reflexivity].
  rewrite IH. apply perm_swap.
Qed.

Lemma order_by_acc_perm (l acc : list A) :
  Permutation (fold_left (fun acc x => insert_sorted leb x acc) l acc) (acc ++ l).
Proof.
  revert acc. induction l as [|x l IH]; intros acc; cbn [fold_left].
  - now rewrite app_nil_r.
  - rewrite IH, insert_sorted_perm. apply Permutation_cons_app. reflexivity.
Qed.

Lemma order_by_perm (l : list A) : Permutation (order_by leb l) l.
Proof. unfold order_by. apply (order_by_acc_perm l []). Qed.

Hypothesis leb_total : forall a b, leb a b = true \/ leb b a = true.
Hypothesis leb_trans : forall a b c, leb a b = true -> leb b c = true -> leb a c = true.

Lemma insert_sorted_sorted (x : A) (l : list A) :
  StronglySorted (fun a b => leb a b = true) l ->
  StronglySorted (fun a b => leb a b = true) (insert_sorted leb x l).
Proof.
  induction 1 as [|y l Hs IH Hy]; cbn [insert_sorted].
  - repeat constructor.
  - destruct (leb y x) eqn:E.
    + constructor; [exact IH|].
      apply (Permutation_Forall (Permutation_sym (insert_sorted_perm x l))).
      constructor; assumption.
    + assert (Hxy : leb x y = true) by (destruct (leb_total x y); congruence).
      constructor; [constructor; assumption|].
      constructor; [exact Hxy|].
      eapply Forall_impl; [|exact Hy]. intros z Hz. now apply leb_trans with y.
Qed.

Lemma order_by_sorted (l : list A) :
  StronglySorted (fun a b => leb a b = true) (order_by leb l).
Proof.
  unfold order_by.
  assert (H : forall acc, StronglySorted (fun a b => leb a b = true) acc ->
            StronglySorted (fun a b => leb a b = true)
              (fold_left (fun acc x => insert_sorted leb x acc) l acc)).
  { induction l as [|x l IH]; intros acc Hacc; cbn [fold_left]; [exact Hacc|].
    apply IH. now apply insert_sorted_sorted. }
  apply H. constructor.
Qed.

End Sorting.

Section Ledger.

Lemma ledger_leb_total (a b : Payment.row) :
  ledger_leb a b = true \/ ledger_leb b a = true.
Proof.
  unfold ledger_leb.
  destruct (Z.ltb_spec (Payment.payment_date a) (Payment.payment_date b));
    [left; reflexivity|].
  destruct (Z.ltb_spec (Payment.payment_date b) (Payment.payment_date a));
    [right; reflexivity|].
  assert (E : Payment.payment_date a = Payment.payment_date b) by lia.
  rewrite E, Z.eqb_refl. cbn [orb andb].
  destruct (Z.leb_spec (Payment.rowid a) (Payment.rowid b)); [left; reflexivity|].
  right. apply Z.leb_le. lia.
Qed.

Lemma ledger_leb_spec (a b : Payment.row) :
  ledger_leb a b = true <->
  (Payment.payment_date a < Payment.payment_date b)%Z \/
  (Payment.payment_date a = Payment.payment_date b /\
   (Payment.rowid a <= Payment.rowid b)%Z).
Proof.
  unfold ledger_leb.
  rewrite orb_true_iff, andb_true_iff, Z.ltb_lt, Z.eqb_eq, Z.leb_le. reflexivity.
Qed.

Lemma ledger_leb_trans (a b c : Payment.row) :
  ledger_leb a b = true -> ledger_leb b c = true -> ledger_leb a c = true.
Proof.
  rewrite !ledger_leb_spec. lia.
Qed.

(** Rows with different rowids sorted by the comparison of the query are
    in the strict order of the ledger. *)
Lemma ledger_sorted_strict (l : list Payment.row) :
  StronglySorted (fun a b => ledger_leb a b = true) l ->
  NoDup (map Payment.rowid l) ->
  StronglySorted ledger_before l.
Proof.
  induction 1 as [|a l Hs IH Ha]; intros Hnd; [constructor|].
  cbn [map] in Hnd. apply NoDup_cons_iff in Hnd. destruct Hnd as [Hnotin Hnd].
  constructor; [now apply IH|].
  rewrite Forall_forall in *. intros b Hb.
  specialize (Ha b Hb). apply ledger_leb_spec in Ha.
  assert (Payment.rowid a <> Payment.rowid b).
  { intros E. apply Hnotin. rewrite E. now apply in_map. }
  unfold ledger_before. lia.
Qed.

Lemma next_rowid_above (ps : list Payment.row) :
  Forall (fun p => (Payment.rowid p < next_rowid ps)%Z) ps.
Proof.
  unfold next_rowid. induction ps as [|p ps IH]; [constructor|].
  cbn [map fold_right]. constructor; [lia|].
  eapply Forall_impl; [|exact IH]. intros q Hq. cbn beta in *. lia.
Qed.

Lemma StronglySorted_snoc {A : Type} (R : A -> A -> Prop) (l : list A) (x : A) :
  StronglySorted R l -> Forall (fun a => R a x) l -> StronglySorted R (l ++ [x]).
Proof.
  induction 1 as [|a l Hs IH Ha]; intros Hx; cbn [app].
  - repeat constructor.
  - inversion Hx as [|? ? Hax Hlx]; subst.
    constructor; [now apply IH|].
    apply Forall_app. split; [assumption|]. now constructor.
Qed.

Lemma StronglySorted_filter {A : Type} (R : A -> A -> Prop) (f : A -> bool) (l : list A) :
  StronglySorted R l -> StronglySorted R (filter f l).
Proof.
  induction 1 as [|a l Hs IH Ha]; cbn [filter]; [constructor|].
  destruct (f a); [|exact IH].
  constructor; [exact IH|].
  rewrite Forall_forall in *. intros b Hb. apply Ha.
  now apply filter_In in Hb.
Qed.

Lemma StronglySorted_rowid_NoDup (l : list Payment.row) :
  StronglySorted inserted_before l -> NoDup (map Payment.rowid l).
Proof.
  induction 1 as [|a l Hs IH Ha]; cbn [map]; constructor; [|exact IH].
  intros Hin. apply in_map_iff in Hin. destruct Hin as (b & Eb & Hb).
  rewrite Forall_forall in Ha. specialize (Ha b Hb).
  unfold inserted_before in Ha. lia.
Qed.

(** The payments after a call: as before, or with one more row. *)
Lemma handle_payments (r : request) (db : DB) :
  payments (snd (handle r db)) = payments db \/
  exists uuid now loanId a ty,
    payments (snd (handle r db))
    = payments db ++ [new_payment uuid now loanId a ty db].
Proof.
  destruct r as [uuid now req|uuid now loanId req|loanId|customerId|]; cbn [handle snd];
    try (left; reflexivity).
  - left. destruct (post_loans_cases uuid now req db) as [[_ Hp]|H]; [exact Hp|].
    now destruct H as (cid & P & N & R & _ & _ & _ & _ & _ & _ & _ & Hp).
  - destruct (post_payments_cases uuid now loanId req db) as [[Hdb _]|H].
    + left. now rewrite Hdb.
    + destruct H as (loan & a & ty & t & _ & _ & _ & _ & _ & _ & _ & _ & Heq).
      right. exists uuid, now, loanId, a, ty. rewrite Heq. cbn [snd].
      destruct (t_balance t <=? of_Z 0)%js; reflexivity.
Qed.

(** Rowids grow with insertion. *)
Lemma reachable_rowids (db : DB) :
  reachable db -> StronglySorted inserted_before (payments db).
Proof.
  induction 1 as [|db r _ IH]; [constructor|].
  destruct (handle_payments r db) as [->|(uuid & now & loanId & a & ty & ->)];
    [exact IH|].
  apply StronglySorted_snoc; [exact IH|].
  apply next_rowid_above.
Qed.

End Ledger.

(** C7. The ledger of a loan lists exactly the payments recorded against
    it, each earlier in time than those after it or, at equal times,
    inserted before them: rowids grow with insertion, so the order is
    total and ties are broken by insertion order.  An unknown loan gives
    [LoanNotFound]. *)
Theorem ledger_order :
  forall (db : DB) (loanId : string),
    reachable db ->
    let rows := ledger_rows loanId db in
    Permutation rows (payments_of loanId db) /\
    StronglySorted ledger_before rows /\
    StronglySorted inserted_before (payments db) /\
    (select_loan loanId db = None -> get_ledger loanId db = LoanNotFound) /\
    (forall loan, select_loan loanId db = Some loan ->
       exists body,
         get_ledger loanId db = mkResponse (Http 200) body /\
         get "transactions" body = Some (JArr (map txn_json rows))).
Proof.
  intros db loanId Hreach rows.
  pose proof (reachable_rowids db Hreach) as Hrow.
  assert (Hperm : Permutation rows (payments_of loanId db))
    by apply order_by_perm.
  split; [exact Hperm|]. split; [|split; [exact Hrow|split]].
  - apply ledger_sorted_strict.
    + apply order_by_sorted; [apply ledger_leb_total|apply ledger_leb_trans].
    + apply (Permutation_NoDup (Permutation_sym (Permutation_map Payment.rowid Hperm))).
      apply StronglySorted_rowid_NoDup. now apply StronglySorted_filter.
  - intros Hnone. unfold get_ledger. now rewrite (totalsForLoan_missing _ _ Hnone).
  - intros loan Hl. unfold get_ledger. rewrite (totalsForLoan_found _ _ _ Hl).
    eexists. split; reflexivity.
Qed.

Lemma ledger_order_witness :
  map Payment.payment_id (ledger_rows "L1" same_second_db) = ["T1"; "T2"] /\
  StronglySorted ledger_before (ledger_rows "L1" same_second_db).
Proof.
  split; [reflexivity|].
  refine (proj1 (proj2 (ledger_order same_second_db "L1" _))).
  apply (reachable_step _
           (PostPayments "T2" 20 "L1" (payment_request (Fin 7) "LUMP_SUM"))).
  apply (reachable_step _
           (PostPayments "T1" 20 "L1" (payment_request (Fin 5) "EMI"))).
  apply (reachable_step empty_db
           (PostLoans "L1" 10 (loan_request "alice" (of_Z 100000) (of_Z 1) (of_Z 10)))).
  apply reachable_empty.
Defined.

(* ================================================================== *)
(** ** The sum of the payments *)
(* ================================================================== *)

Section Sum.

Lemma sum_amounts_perm (l l' : list num) :
  Permutation l l' -> sum_amounts l = sum_amounts l'.
Proof.
  induction 1 as [|x l l' _ IH|x y l|l l' l'' _ IH1 _ IH2];
    cbn [sum_amounts fold_right].
  - reflexivity.
  - unfold sum_amounts in IH. now rewrite IH.
  - rewrite !add_assoc. f_equal. apply add_comm.
  - congruence.
Qed.

(** The amount paid that the query returns is a function of the sum. *)
Lemma select_paid_of_sum (loanId : string) (db : DB) :
  select_paid loanId db =
  if isNaN (paid_to_date loanId db) then Fin 0 else paid_to_date loanId db.
Proof.
  unfold paid_to_date.
  destruct (isNaN (sum_amounts (amounts_of loanId db))) eqn:E.
  - unfold select_paid, SUM. fold (amounts_of loanId db).
    destruct (amounts_of loanId db) as [|a l] eqn:El; [reflexivity|].
    rewrite fold_left_add_sum. unfold sql_real. rewrite E. reflexivity.
  - now apply select_paid_sum.
Qed.

Lemma reachable_select_paid (db : DB) (loanId : string) :
  reachable db -> select_paid loanId db = paid_to_date loanId db.
Proof.
  intros Hreach. apply select_paid_sum, money_not_NaN, money_sum, amounts_money.
  apply (inv_amounts db (reachable_inv db Hreach)).
Qed.

End Sum.

Section Agreement.

Lemma sum_amounts_reduced (l : list num) (q : Q) :
  sum_amounts l = Fin q -> Qred q = q.
Proof.
  destruct l as [|a l]; cbn [sum_amounts fold_right].
  - intros [= <-]. reflexivity.
  - fold (sum_amounts l). destruct a as [x| | |], (sum_amounts l) as [y| | |];
      cbn [add]; try discriminate.
    intros H. assert (Hq : q = Qred (x + y)) by congruence.
    rewrite Hq. apply Qred_complete, Qred_correct.
Qed.

Lemma round2_sum_fixed (l : list num) :
  Forall money l -> round2 (sum_amounts l) = sum_amounts l.
Proof.
  intros Hl. destruct (money_sum l Hl) as [->|(q & Hq & Hc)]; [reflexivity|].
  rewrite Hq, (round2_of_cents q Hc). f_equal. now apply (sum_amounts_reduced l).
Qed.

End Agreement.



(** The whole cents matter: in a store holding an amount of half a cent,
    which no call records, the balance from the unrounded sum is 110000
    and the balance from the rounded sum would be 109999.99. *)
Remark unrounded_sum_outside_reachable :
  exists t loan,
    select_loan "L1" half_cent_db = Some loan /\
    totalsForLoan "L1" half_cent_db = Ok t /\
    t_balance t = Fin 110000 /\
    Math_max (of_Z 0)
      (round2 (Loan.total_amount loan
               - round2 (sum_amounts (amounts_of "L1" half_cent_db)))%js)
    = Fin (10999999 # 100).
Proof.
  eexists. eexists. split; [reflexivity|]. split; [reflexivity|].
  split; vm_compute; reflexivity.
Qed.



(* ================================================================== *)
(** ** The overview of a customer *)
(* ================================================================== *)

Section Overview.

Lemma newest_first_total (a b : Loan.row) :
  newest_first_leb a b = true \/ newest_first_leb b a = true.
Proof. unfold newest_first_leb. rewrite !Z.leb_le. lia. Qed.

Lemma newest_first_trans (a b c : Loan.row) :
  newest_first_leb a b = true -> newest_first_leb b c = true ->
  newest_first_leb a c = true.
Proof. unfold newest_first_leb. rewrite !Z.leb_le. lia. Qed.

Lemma loans_of_customer_perm (customerId : string) (db : DB) :
  Permutation (loans_of_customer customerId db) (loans_where_customer customerId db).
Proof. apply order_by_perm. Qed.

Lemma loans_of_customer_sorted (customerId : string) (db : DB) :
  StronglySorted not_older (loans_of_customer customerId db).
Proof.
  pose proof (order_by_sorted newest_first_leb newest_first_total newest_first_trans
                (loans_where_customer customerId db)) as H.
  unfold loans_of_customer. fold (loans_where_customer customerId db).
  induction H as [|a l Hs IH Ha]; constructor; [exact IH|].
  eapply Forall_impl; [|exact Ha]. intros b Hb. now apply Z.leb_le.
Qed.

End Overview.

(** C8, as the specification words it, fails: the summary of the overview
    carries no balance.  For the loan of the scenario after its first
    payment the balance is 100833.33; the summary has no key for it and no
    field of that value. *)
Lemma overview_without_balance_counterexample :
  exists fields t,
    get "loans" (res_body (get_overview "alice" (snd scenario_pay1)))
      = Some (JArr [JObj fields]) /\
    totalsForLoan "L1" (snd scenario_pay1) = Ok t /\
    t_balance t = Fin (10083333 # 100) /\
    map fst fields = ["loan_id"; "principal"; "total_amount"; "total_interest";
                      "emi_amount"; "amount_paid"; "emis_left"; "status"; "created_at"] /\
    forall k v, In (k, v) fields -> v <> JNum (t_balance t).
Proof.
  eexists. eexists. split; [vm_compute; reflexivity|].
  split; [vm_compute; reflexivity|].
  split; [reflexivity|]. split; [reflexivity|].
  intros k v Hin. vm_compute in Hin. vm_compute.
  repeat (destruct Hin as [Hin|Hin]; [injection Hin as _ <-; discriminate|]).
  contradiction.
Qed.

(** C8, amended. For a customer with no loan the overview replies
    [NoLoansForCustomer]; otherwise it replies one summary per loan of the
    customer, most recently created first.  Each summary carries
    [amount_paid] and [emis_left], recomputed from the payments recorded
    against that loan; the balance is computed on the way and is not part of
    the summary. *)
Theorem overview_summaries :
  forall (db : DB) (customerId : string),
    reachable db ->
    let mine := loans_where_customer customerId db in
    let rows := loans_of_customer customerId db in
    Permutation rows mine /\
    StronglySorted not_older rows /\
    (mine = [] -> get_overview customerId db = NoLoansForCustomer) /\
    (mine <> [] ->
     get_overview customerId db =
       mkResponse (Http 200)
         (JObj [("customer_id", JStr customerId);
                ("total_loans", JNum (of_Z (Z.of_nat (List.length mine))));
                ("loans", JArr (map (overview_entry db) rows))])) /\
    forall ln,
      let paid := paid_to_date (Loan.loan_id ln) db in
      let balance := Math_max (of_Z 0) (round2 (Loan.total_amount ln - paid)%js) in
      get "amount_paid" (overview_entry db ln) = Some (JNum (round2 paid)) /\
      get "emis_left" (overview_entry db ln)
        = Some (JNum (if (balance <=? of_Z 0)%js then of_Z 0
                      else Math_ceil (balance / Loan.monthly_emi ln)%js)) /\
      keys (overview_entry db ln)
        = ["loan_id"; "principal"; "total_amount"; "total_interest"; "emi_amount";
           "amount_paid"; "emis_left"; "status"; "created_at"].
Proof.
  intros db customerId Hreach mine rows.
  pose proof (loans_of_customer_perm customerId db) as Hperm.
  fold mine in Hperm. fold rows in Hperm.
  split; [exact Hperm|]. split; [apply loans_of_customer_sorted|].
  split; [|split].
  - intros Hnil. unfold get_overview. fold rows.
    rewrite Hnil in Hperm. apply Permutation_sym, Permutation_nil in Hperm.
    rewrite Hperm. reflexivity.
  - intros Hne. unfold get_overview. fold rows.
    destruct rows as [|r rs] eqn:Hrows.
    + apply Permutation_nil in Hperm. contradiction.
    + cbn [List.length Nat.eqb]. rewrite length_map.
      rewrite (Permutation_length Hperm). reflexivity.
  - intros ln paid balance. unfold overview_entry.
    rewrite (reachable_select_paid db _ Hreach). repeat split.
Qed.

Lemma overview_summaries_witness :
  get_overview "carol" (snd scenario_pay1) = NoLoansForCustomer /\
  get "amount_paid" (overview_entry (snd scenario_pay1)
                       (Loan.mk "L1" "alice" (Fin 100000) (Fin 10) (Fin 1) (Fin 110000)
                                (Fin (916667 # 100)) ACTIVE 10))
  = Some (JNum (Fin (916667 # 100))).
Proof.
  pose proof (reachable_step _
    (PostLoans "L1" 10 (loan_request "alice" (of_Z 100000) (of_Z 1) (of_Z 10)))
    reachable_empty) as H0.
  pose proof (reachable_step _
    (PostPayments "T1" 20 "L1" (payment_request (Fin (916667 # 100)) "EMI")) H0) as H1.
  split.
  - exact (proj1 (proj2 (proj2 (overview_summaries _ "carol" H1))) eq_refl).
  - exact (proj1 (proj2 (proj2 (proj2 (proj2 (overview_summaries _ "alice" H1))))
                    (Loan.mk "L1" "alice" (Fin 100000) (Fin 10) (Fin 1) (Fin 110000)
                             (Fin (916667 # 100)) ACTIVE 10))).
Defined.

(* ================================================================== *)
(** ** Further properties: rounding and interest *)
(* ================================================================== *)

Section Rounding.

Lemma round2_cents_bounds (q : Q) :
  (q + (1 # 4503599627370496)) * 100 - (1 # 2) < inject_Z (round2_cents q) /\
  inject_Z (round2_cents q) <= (q + (1 # 4503599627370496)) * 100 + (1 # 2).
Proof.
  unfold round2_cents.
  set (x := Qred (Qred (q + (1 # 4503599627370496)) * inject_Z 100) + (1 # 2)).
  assert (Hx : x == (q + (1 # 4503599627370496)) * 100 + (1 # 2)).
  { unfold x. rewrite !Qred_correct. reflexivity. }
  pose proof (Qfloor_le x) as Hlo. pose proof (Qlt_floor x) as Hhi.
  rewrite inject_Z_plus in Hhi. change (inject_Z 1) with 1 in Hhi.
  clearbody x. revert Hlo Hhi. generalize (inject_Z (Qfloor x)). intros f Hlo Hhi.
  split; lra.
Qed.

Lemma round2_cents_mono (a b : Q) : a <= b -> (round2_cents a <= round2_cents b)%Z.
Proof.
  intros Hab. unfold round2_cents. apply Qfloor_resp_le.
  rewrite !Qred_correct. apply Qplus_le_l. apply Qmult_le_compat_r; [|discriminate].
  lra.
Qed.

Lemma round2_value (q : Q) :
  exists c, round2 (Fin q) = Fin c /\ c == inject_Z (round2_cents q) / 100.
Proof.
  rewrite round2_Fin. eexists. split; [reflexivity|]. now rewrite Qred_correct.
Qed.

End Rounding.

Lemma round2_round2 (x : num) : round2 (round2 x) = round2 x.
Proof.
  destruct x as [q| | |]; try reflexivity.
  destruct (round2_Fin_cents q) as (c & Hc & Hcents).
  rewrite Hc, (round2_of_cents c Hcents). f_equal.
  rewrite round2_Fin in Hc.
  assert (Hred : c = Qred (inject_Z (round2_cents q) / inject_Z 100)) by congruence.
  rewrite Hred. apply Qred_complete, Qred_correct.
Qed.



Lemma round2_le (x y : num) :
  (x <=? y)%js = true -> (round2 x <=? round2 y)%js = true.
Proof.
  intros Hxy.
  destruct x as [a| | |], y as [b| | |]; try discriminate; try reflexivity.
  cbn [le] in Hxy. apply Qleb_spec in Hxy.
  destruct (round2_value a) as (ca & -> & Ha).
  destruct (round2_value b) as (cb & -> & Hb).
  cbn [le]. apply Qleb_spec. rewrite Ha, Hb.
  apply Qmult_le_compat_r; [|discriminate].
  rewrite <- Zle_Qle. now apply round2_cents_mono.
Qed.

(** X3. [round2] keeps the order: if [x <= y] then [round2(x) <= round2(y)]. *)
Theorem round2_monotone :
  forall x y : num, (x <=? y)%js = true -> (round2 x <=? round2 y)%js = true.
Proof. exact round2_le. Qed.

Lemma round2_monotone_witness :
  (round2 (Fin (4 # 1000)) <=? round2 (Fin (5 # 1000)))%js = true.
Proof.
  apply (round2_monotone (Fin (4 # 1000)) (Fin (5 # 1000))). reflexivity.
Defined.



(* ================================================================== *)
(** ** Further properties: the loan route *)
(* ================================================================== *)

Section LoanRoute.

Lemma upsertCustomer_exists (now : timestamp) (c : string) (db : DB) :
  select_customer c (upsertCustomer now c db) <> None.
Proof.
  unfold upsertCustomer, select_customer.
  destruct (find _ (customers db)) eqn:E.
  - rewrite E. discriminate.
  - unfold insert_customer. cbn [customers].
    rewrite (find_app_new _ _ (Customer.mk c None now) E); [discriminate|].
    cbn. apply String.eqb_refl.
Qed.

Lemma upsertCustomer_cases (now : timestamp) (c : string) (db : DB) :
  (select_customer c db <> None /\ upsertCustomer now c db = db) \/
  (select_customer c db = None /\
   customers (upsertCustomer now c db) = customers db ++ [Customer.mk c None now]).
Proof.
  unfold upsertCustomer, select_customer.
  destruct (find _ (customers db)) eqn:E.
  - left. split; [discriminate|reflexivity].
  - right. split; reflexivity.
Qed.

Lemma caught_sqlite_internal (code : string) : internal_error (caught (SqliteError code)).
Proof.
  unfold internal_error, caught. destruct (String.eqb code ""); cbn;
    repeat split; discriminate.
Qed.

(** The loan route, path by path. *)
Lemma post_loans_paths (uuid : string) (now : timestamp) (req : LoanReq.t) (db : DB) :
  post_loans uuid now req db = (FieldsRequired, db) \/
  post_loans uuid now req db = (InvalidTerms, db) \/
  exists cid P N R,
    LoanReq.customer_id req = Some cid /\ LoanReq.loan_amount req = Some P /\
    LoanReq.loan_period_years req = Some N /\
    LoanReq.interest_rate_yearly req = Some R /\
    cid <> "" /\ valid_terms P N R = true /\
    let db1 := upsertCustomer now cid db in
    (internal_error (fst (post_loans uuid now req db)) /\
     snd (post_loans uuid now req db) = db1 /\
     (select_loan uuid db <> None \/
      isNaN P || isNaN R || isNaN N || isNaN (Loan.total_amount (new_loan uuid now cid P N R))
      || isNaN (Loan.monthly_emi (new_loan uuid now cid P N R)) = true))
    \/
    (select_loan uuid db = None /\
     isNaN P = false /\ isNaN R = false /\ isNaN N = false /\
     isNaN (Loan.total_amount (new_loan uuid now cid P N R)) = false /\
     isNaN (Loan.monthly_emi (new_loan uuid now cid P N R)) = false /\
     res_status (fst (post_loans uuid now req db)) = Http 201 /\
     get "loan_id" (res_body (fst (post_loans uuid now req db))) = Some (JStr uuid) /\
     snd (post_loans uuid now req db)
     = mkDB (customers db1) (loans db ++ [new_loan uuid now cid P N R]) (payments db)).
Proof.
  unfold post_loans.
  destruct (LoanReq.customer_id req) as [cid|]; [|left; reflexivity].
  destruct (LoanReq.loan_amount req) as [P|]; [|left; reflexivity].
  destruct (LoanReq.loan_period_years req) as [N|]; [|left; reflexivity].
  destruct (LoanReq.interest_rate_yearly req) as [R|]; [|left; reflexivity].
  destruct (String.eqb_spec cid "") as [|Hcid]; [left; reflexivity|].
  destruct ((P <=? of_Z 0)%js || (N <=? of_Z 0)%js || (R <? of_Z 0)%js) eqn:Hv;
    [right; left; reflexivity|].
  right. right. exists cid, P, N, R.
  repeat (split; [reflexivity|]). split; [exact Hcid|].
  split; [unfold valid_terms; now rewrite Hv|].
  unfold insert_loan, Number. cbn [new_loan Loan.total_amount Loan.monthly_emi].
  destruct (isNaN P || isNaN R || isNaN N || isNaN (round2 (SI_A (computeSI P N R)))
            || isNaN (round2 (SI_A (computeSI P N R) / (N * of_Z 12))%js)) eqn:Hnan.
  { left. cbn [fst snd]. split; [apply caught_sqlite_internal|].
    split; [reflexivity|]. now right. }
  destruct (existsb _ (loans (upsertCustomer now cid db))) eqn:Hpk.
  { left. cbn [fst snd]. split; [apply caught_sqlite_internal|].
    split; [reflexivity|]. left. intros Hnone.
    unfold select_loan in Hnone. apply find_none_existsb in Hnone.
    rewrite loans_upsertCustomer in Hpk. congruence. }
  right. cbn [fst snd res_status res_body get field String.eqb Ascii.eqb Bool.eqb].
  rewrite loans_upsertCustomer in *. rewrite payments_upsertCustomer.
  repeat (apply orb_false_elim in Hnan; destruct Hnan as [Hnan ?]).
  split; [now apply existsb_false_find|].
  repeat (split; [assumption|]).
  repeat split.
Qed.

End LoanRoute.

(** X5. The loan route stores nothing, not even the customer, when it
    refuses a request: a body that lacks a field or has an empty
    [customer_id] gets the 400 that lists the required fields, and a
    principal or a term that is [<= 0] or a rate that is [< 0] gets
    400 "Invalid numeric values". *)
Theorem loan_request_refused :
  forall (uuid : string) (now : timestamp) (req : LoanReq.t) (db : DB),
    ((LoanReq.customer_id req = None \/ LoanReq.customer_id req = Some ""
      \/ LoanReq.loan_amount req = None \/ LoanReq.loan_period_years req = None
      \/ LoanReq.interest_rate_yearly req = None) ->
     post_loans uuid now req db = (FieldsRequired, db)) /\
    (forall cid P N R,
       LoanReq.customer_id req = Some cid -> cid <> "" ->
       LoanReq.loan_amount req = Some P ->
       LoanReq.loan_period_years req = Some N ->
       LoanReq.interest_rate_yearly req = Some R ->
       (P <=? of_Z 0)%js = true \/ (N <=? of_Z 0)%js = true \/ (R <? of_Z 0)%js = true ->
       post_loans uuid now req db = (InvalidTerms, db)).
Proof.
  intros uuid now req db. split.
  - intros H. unfold post_loans, FieldsRequired.
    destruct (LoanReq.customer_id req) as [cid|] eqn:E1; [|reflexivity].
    destruct (LoanReq.loan_amount req) as [P|] eqn:E2; [|reflexivity].
    destruct (LoanReq.loan_period_years req) as [N|] eqn:E3; [|reflexivity].
    destruct (LoanReq.interest_rate_yearly req) as [R|] eqn:E4; [|reflexivity].
    destruct H as [H|[H|[H|[H|H]]]]; try discriminate.
    injection H as ->. reflexivity.
  - intros cid P N R Hc Hne HP HN HR Hbad. unfold post_loans.
    rewrite Hc, HP, HN, HR.
    destruct (String.eqb_spec cid ""); [contradiction|].
    assert ((P <=? of_Z 0)%js || (N <=? of_Z 0)%js || (R <? of_Z 0)%js = true) as ->;
      [|reflexivity].
    destruct Hbad as [ -> | [ -> | -> ]]; rewrite ?orb_true_r; reflexivity.
Qed.

Lemma loan_request_refused_witness :
  post_loans "L9" 50 (loan_request "erin" (of_Z 0) (of_Z 1) (of_Z 10)) scenario_db0
  = (InvalidTerms, scenario_db0).
Proof.
  apply (proj2 (loan_request_refused "L9" 50%Z
                  (loan_request "erin" (of_Z 0) (of_Z 1) (of_Z 10)) scenario_db0)
           "erin" (of_Z 0) (of_Z 1) (of_Z 10)); try reflexivity.
  - discriminate.
  - left. reflexivity.
Defined.

(** X6. Once a loan request has passed the checks the customer row exists,
    whatever follows.  When the call then does not reply 201, as it must
    when the id drawn for the loan is already taken, the reply is an
    internal error, no loan and no payment is stored, and the customer row
    the call created stays. *)
Theorem loan_insert_failure_keeps_customer :
  forall (uuid : string) (now : timestamp) (req : LoanReq.t) (db : DB)
         (cid : string) (P N R : num),
    LoanReq.customer_id req = Some cid -> cid <> "" ->
    LoanReq.loan_amount req = Some P ->
    LoanReq.loan_period_years req = Some N ->
    LoanReq.interest_rate_yearly req = Some R ->
    valid_terms P N R = true ->
    let db' := snd (post_loans uuid now req db) in
    select_customer cid db' <> None /\
    customers db' = customers (upsertCustomer now cid db) /\
    (select_loan uuid db <> None ->
     res_status (fst (post_loans uuid now req db)) <> Http 201) /\
    (res_status (fst (post_loans uuid now req db)) <> Http 201 ->
     internal_error (fst (post_loans uuid now req db)) /\
     loans db' = loans db /\ payments db' = payments db).
Proof.
  intros uuid now req db cid P N R Hc Hne HP HN HR Hv db'.
  destruct (post_loans_paths uuid now req db) as [H|[H|H]].
  - exfalso. unfold post_loans in H. rewrite Hc, HP, HN, HR in H.
    destruct (String.eqb_spec cid ""); [contradiction|].
    unfold valid_terms in Hv. apply negb_true_iff in Hv. rewrite Hv in H.
    unfold insert_loan in H.
    apply (f_equal (fun x => res_status (fst x))) in H.
    repeat match type of H with
           | context [if ?b then _ else _] => destruct b
           end; cbn in H; discriminate.
  - exfalso. unfold post_loans in H. rewrite Hc, HP, HN, HR in H.
    destruct (String.eqb_spec cid ""); [contradiction|].
    unfold valid_terms in Hv. apply negb_true_iff in Hv. rewrite Hv in H.
    unfold insert_loan in H.
    apply (f_equal (fun x => res_status (fst x))) in H.
    repeat match type of H with
           | context [if ?b then _ else _] => destruct b
           end; cbn in H; discriminate.
  - destruct H as (cid' & P' & N' & R' & Hc' & HP' & HN' & HR' & _ & _ & Hpath).
    assert (cid' = cid) as -> by congruence.
    assert (P' = P) as -> by congruence.
    assert (N' = N) as -> by congruence.
    assert (R' = R) as -> by congruence.
    cbv zeta in Hpath. fold db' in Hpath.
    destruct Hpath as [(Herr & Hdb & _)|(Hfresh & _ & _ & _ & _ & _ & H201 & _ & Hdb)].
    + rewrite Hdb. split; [apply upsertCustomer_exists|]. split; [reflexivity|].
      split; [intros _; apply Herr|].
      intros _. split; [exact Herr|].
      split; [apply loans_upsertCustomer|apply payments_upsertCustomer].
    + rewrite Hdb. cbn [customers]. split.
      * pose proof (upsertCustomer_exists now cid db) as H. exact H.
      * split; [reflexivity|]. split; [intros Hex; contradiction|].
        intros Hst. now contradiction Hst.
Qed.

Lemma loan_insert_failure_keeps_customer_witness :
  select_customer "dave" scenario_db0 = None /\
  select_customer "dave" (snd (handle collision_request scenario_db0)) <> None /\
  loans (snd (handle collision_request scenario_db0)) = loans scenario_db0.
Proof.
  split; [reflexivity|].
  destruct (loan_insert_failure_keeps_customer "L1" 40%Z
              (loan_request "dave" (of_Z 500) (of_Z 2) (of_Z 5)) scenario_db0
              "dave" (of_Z 500) (of_Z 2) (of_Z 5))
    as (Hc & _ & Htaken & Hfail); try reflexivity.
  - discriminate.
  - split; [exact Hc|]. apply Hfail, Htaken. discriminate.
Defined.

(* ================================================================== *)
(** ** Further properties: what the tables keep *)
(* ================================================================== *)

Section Integrity.

Lemma lt_of_not_le (x : num) :
  isNaN x = false -> (x <=? of_Z 0)%js = false -> (of_Z 0 <? x)%js = true.
Proof.
  destruct x as [q| | |]; cbn [isNaN le lt of_Z]; try congruence.
  intros _ H. apply Qleb_false in H. now apply Qltb_spec.
Qed.

Lemma le_of_not_lt (x : num) :
  isNaN x = false -> (x <? of_Z 0)%js = false -> (of_Z 0 <=? x)%js = true.
Proof.
  destruct x as [q| | |]; cbn [isNaN le lt of_Z]; try congruence.
  intros _ H. apply Qleb_spec.
  destruct (Qlt_le_dec q (inject_Z 0)) as [Hlt|Hle]; [|exact Hle].
  apply Qltb_spec in Hlt. congruence.
Qed.

Lemma round2_amount_nonneg (a : num) :
  bad_amount a = false -> (of_Z 0 <=? round2 a)%js = true.
Proof.
  intros Hbad. change (of_Z 0) with (round2 (of_Z 0)). apply round2_le.
  unfold bad_amount in Hbad. apply orb_false_elim in Hbad. destruct Hbad as [Hf Hle].
  destruct a as [q| | |]; cbn [falsy le of_Z] in *; try discriminate; try reflexivity.
  apply Qleb_false in Hle. apply Qleb_spec. now apply Qlt_le_weak.
Qed.

Lemma known_payment_type_spec (ty : string) :
  bad_payment_type ty = false -> ty = "EMI" \/ ty = "LUMP_SUM".
Proof.
  unfold bad_payment_type, known_payment_type. intros H.
  apply orb_false_elim in H. destruct H as [_ H]. apply negb_false_iff in H.
  apply orb_true_iff in H. destruct H as [H|H]; apply String.eqb_eq in H; auto.
Qed.

(** An accepted payment was given an id no stored payment has. *)
Lemma post_payments_fresh (uuid : string) (now : timestamp) (loanId : string)
    (req : PaymentReq.t) (db : DB) :
  res_status (fst (post_payments uuid now loanId req db)) = Http 200 ->
  ~ In uuid (map Payment.payment_id (payments db)).
Proof.
  unfold post_payments, getLoanOr404, insert_payment.
  destruct (select_loan loanId db); [|discriminate].
  destruct (PaymentReq.amount req) as [a|]; [|discriminate].
  destruct (bad_amount a); [discriminate|].
  destruct (PaymentReq.payment_type req) as [ty|]; [|discriminate].
  destruct (bad_payment_type ty); [discriminate|].
  destruct (loan_status_eqb _ _); [discriminate|].
  destruct (isNaN _); [cbn; discriminate|].
  destruct (existsb _ (payments db)) eqn:E; [cbn; discriminate|].
  intros _ Hin. apply in_map_iff in Hin. destruct Hin as (p & Hp & Hin).
  assert (existsb (fun p => String.eqb (Payment.payment_id p) uuid) (payments db) = true).
  { apply existsb_exists. exists p. split; [exact Hin|]. now apply String.eqb_eq. }
  congruence.
Qed.

Lemma select_customer_none_ids (c : string) (db : DB) :
  select_customer c db = None -> ~ In c (map Customer.customer_id (customers db)).
Proof.
  unfold select_customer. intros Hnone Hin. apply in_map_iff in Hin.
  destruct Hin as (x & Hx & Hin).
  pose proof (find_none _ _ Hnone x Hin) as H. cbn in H.
  rewrite Hx, String.eqb_refl in H. discriminate.
Qed.

Lemma select_customer_some_ids (c : string) (db : DB) :
  select_customer c db <> None -> In c (map Customer.customer_id (customers db)).
Proof.
  unfold select_customer. destruct (find _ _) as [x|] eqn:E; [|congruence].
  intros _. apply find_some in E. destruct E as [Hin Heq].
  apply String.eqb_eq in Heq. rewrite <- Heq. now apply in_map.
Qed.

(** The customers after [upsertCustomer]. *)
Lemma integrity_upsert (now : timestamp) (c : string) (db : DB) :
  NoDup (map Customer.customer_id (customers db)) ->
  (forall x, In x (customers db) -> Customer.name x = None) ->
  NoDup (map Customer.customer_id (customers (upsertCustomer now c db))) /\
  (forall x, In x (customers (upsertCustomer now c db)) -> Customer.name x = None) /\
  incl (customers db) (customers (upsertCustomer now c db)) /\
  In c (map Customer.customer_id (customers (upsertCustomer now c db))).
Proof.
  intros Hnd Hnames.
  pose proof (select_customer_some_ids c _ (upsertCustomer_exists now c db)) as Hin.
  destruct (upsertCustomer_cases now c db) as [[_ Heq]|[Hnone Heq]].
  - rewrite Heq in *. split; [exact Hnd|]. split; [exact Hnames|]. split; [apply incl_refl|exact Hin].
  - rewrite Heq in *. split; [|split; [|split]].
    + rewrite map_app. apply NoDup_app; [assumption|repeat constructor; intros []|].
      intros a Ha [<-|[]]. now apply (select_customer_none_ids _ _ Hnone).
    + intros x Hx. apply in_app_or in Hx. destruct Hx as [Hx|[<-|[]]];
        [now apply Hnames|reflexivity].
    + apply incl_appl, incl_refl.
    + exact Hin.
Qed.

Lemma integrity_empty : integrity empty_db.
Proof.
  constructor; cbn; try contradiction; constructor.
Qed.

Lemma accepted_terms_new (uuid : string) (now : timestamp) (cid : string) (P N R : num) :
  valid_terms P N R = true ->
  isNaN P = false -> isNaN N = false -> isNaN R = false ->
  accepted_terms (new_loan uuid now cid P N R).
Proof.
  unfold valid_terms. intros Hv HP HN HR. apply negb_true_iff in Hv.
  apply orb_false_elim in Hv. destruct Hv as [Hv HR0].
  apply orb_false_elim in Hv. destruct Hv as [HP0 HN0].
  unfold accepted_terms. cbn [new_loan Loan.principal_amount Loan.loan_period_years
                              Loan.interest_rate].
  repeat split; [now apply lt_of_not_le|now apply lt_of_not_le|now apply le_of_not_lt].
Qed.

Lemma integrity_mark (loanId : string) (l : Loan.row) :
  accepted_terms l /\ origination_consistent l ->
  accepted_terms (mark_paid_off loanId l) /\ origination_consistent (mark_paid_off loanId l).
Proof.
  unfold mark_paid_off. destruct (String.eqb _ _); [|trivial].
  destruct l. trivial.
Qed.

Lemma integrity_step (r : request) (db : DB) :
  integrity db -> integrity (snd (handle r db)).
Proof.
  intros [H1 H2 H3 H4 H5 H6 H7].
  destruct r as [uuid now req|uuid now loanId req|loanId|customerId|]; cbn [handle snd];
    try (constructor; assumption).
  - destruct (post_loans_paths uuid now req db) as [->|[->|H]];
      try (constructor; assumption).
    destruct H as (cid & P & N & R & _ & _ & _ & _ & _ & Hv & Hpath).
    cbv zeta in Hpath.
    destruct (integrity_upsert now cid db H1 H2) as (U1 & U2 & U3 & U4).
    destruct Hpath as [(_ & -> & _)|(_ & HP & HR & HN & _ & _ & _ & _ & ->)].
    + constructor; rewrite ?loans_upsertCustomer, ?payments_upsertCustomer;
        try assumption.
      intros l Hl. specialize (H3 l Hl). apply in_map_iff in H3.
      destruct H3 as (x & <- & Hx). apply in_map. now apply U3.
    + constructor; cbn [customers loans payments]; try assumption.
      * intros l Hl. apply in_app_or in Hl. destruct Hl as [Hl|[<-|[]]].
        -- specialize (H3 l Hl). apply in_map_iff in H3.
           destruct H3 as (x & <- & Hx). apply in_map. now apply U3.
        -- exact U4.
      * intros l Hl. apply in_app_or in Hl. destruct Hl as [Hl|[<-|[]]].
        -- now apply H4.
        -- split; [now apply accepted_terms_new|]. split; reflexivity.
  - pose proof (post_payments_fresh uuid now loanId req db) as Hfresh.
    destruct (post_payments_cases uuid now loanId req db) as [[-> _]|H];
      [constructor; assumption|].
    destruct H as (loan & a & ty & t & _ & _ & _ & Ha & _ & Hty & _ & _ & Heq).
    rewrite Heq in *. cbn [fst snd res_status] in *. specialize (Hfresh eq_refl).
    set (np := new_payment uuid now loanId a ty db) in *.
    assert (P5 : NoDup (map Payment.payment_id (payments db ++ [np]))).
    { rewrite map_app. apply NoDup_app; [assumption|repeat constructor; intros []|].
      intros x Hx [<-|[]]. contradiction. }
    assert (P6 : forall p, In p (payments db ++ [np]) ->
                 Payment.payment_type p = "EMI" \/ Payment.payment_type p = "LUMP_SUM").
    { intros p Hp. apply in_app_or in Hp. destruct Hp as [Hp|[<-|[]]];
        [now apply H6|]. now apply known_payment_type_spec. }
    assert (P7 : forall p, In p (payments db ++ [np]) ->
                 (of_Z 0 <=? Payment.amount p)%js = true).
    { intros p Hp. apply in_app_or in Hp. destruct Hp as [Hp|[<-|[]]];
        [now apply H7|]. now apply round2_amount_nonneg. }
    destruct (t_balance t <=? of_Z 0)%js.
    + constructor; cbn [customers loans payments update_paid_off with_payment];
        try assumption.
      * intros l Hl. apply in_map_iff in Hl. destruct Hl as (l0 & <- & Hl0).
        change (In (Loan.customer_id (mark_paid_off loanId l0))
                   (map Customer.customer_id (customers db))).
        destruct (same_terms_mark loanId l0) as (_ & -> & _). now apply H3.
      * intros l Hl. apply in_map_iff in Hl. destruct Hl as (l0 & <- & Hl0).
        apply (integrity_mark loanId l0). now apply H4.
    + constructor; cbn [customers loans payments with_payment]; assumption.
Qed.

Lemma reachable_integrity (db : DB) : reachable db -> integrity db.
Proof.
  induction 1 as [|db r _ IH]; [apply integrity_empty|now apply integrity_step].
Qed.

(** The tables after a call start with the tables before it. *)
Lemma handle_grows (r : request) (db : DB) :
  exists cs ls ps,
    customers (snd (handle r db)) = customers db ++ cs /\
    map Loan.loan_id (loans (snd (handle r db))) = map Loan.loan_id (loans db) ++ ls /\
    payments (snd (handle r db)) = payments db ++ ps.
Proof.
  destruct (handle_loans r db) as (g & created & Hl & _ & Hg).
  assert (Hids : map Loan.loan_id (loans (snd (handle r db)))
                 = map Loan.loan_id (loans db) ++ map Loan.loan_id created).
  { rewrite Hl, map_app, map_map. f_equal.
    apply map_ext. intros l. now destruct (Hg l) as [(-> & _) _]. }
  assert (Hps : exists ps, payments (snd (handle r db)) = payments db ++ ps).
  { destruct (handle_payments r db) as [->|(u & n & i & a & ty & ->)].
    - exists []. now rewrite app_nil_r.
    - eexists. reflexivity. }
  destruct Hps as (ps & Hps).
  assert (Hcs : exists cs, customers (snd (handle r db)) = customers db ++ cs).
  { destruct r as [uuid now req|uuid now loanId req|loanId|customerId|]; cbn [handle snd];
      try (exists []; now rewrite app_nil_r).
    - destruct (post_loans_paths uuid now req db) as [->|[->|H]];
        try (exists []; now rewrite app_nil_r).
      destruct H as (cid & P & N & R & _ & _ & _ & _ & _ & _ & Hpath). cbv zeta in Hpath.
      assert (Hc : customers (snd (post_loans uuid now req db))
                   = customers (upsertCustomer now cid db)).
      { destruct Hpath as [(_ & -> & _)|(_ & _ & _ & _ & _ & _ & _ & _ & ->)]; reflexivity. }
      rewrite Hc. destruct (upsertCustomer_cases now cid db) as [[_ ->]|[_ ->]].
      + exists []. now rewrite app_nil_r.
      + eexists. reflexivity.
    - destruct (post_payments_cases uuid now loanId req db) as [[-> _]|H].
      + exists []. now rewrite app_nil_r.
      + destruct H as (loan & a & ty & t & _ & _ & _ & _ & _ & _ & _ & _ & ->).
        cbn [snd]. exists []. rewrite app_nil_r.
        destruct (t_balance t <=? of_Z 0)%js; reflexivity. }
  destruct Hcs as (cs & Hcs). exists cs, (map Loan.loan_id created), ps.
  repeat split; assumption.
Qed.

Lemma run_grows (rs : list request) :
  forall db, exists cs ls ps,
    customers (run rs db) = customers db ++ cs /\
    map Loan.loan_id (loans (run rs db)) = map Loan.loan_id (loans db) ++ ls /\
    payments (run rs db) = payments db ++ ps.
Proof.
  induction rs as [|r rs IH]; intros db.
  - exists [], [], []. cbn [run fold_left]. now rewrite !app_nil_r.
  - rewrite run_cons.
    destruct (handle_grows r db) as (c1 & l1 & p1 & Hc1 & Hl1 & Hp1).
    destruct (IH (snd (handle r db))) as (c2 & l2 & p2 & Hc2 & Hl2 & Hp2).
    exists (c1 ++ c2), (l1 ++ l2), (p1 ++ p2).
    rewrite Hc2, Hl2, Hp2, Hc1, Hl1, Hp1, !app_assoc. repeat split.
Qed.

End Integrity.

(** X7. In every store the server can reach the customer ids are distinct,
    no customer has a name (the route creates customers with [name] null
    and nothing else writes it), and every loan belongs to a customer of the
    table. *)
Theorem customers_kept :
  forall db : DB,
    reachable db ->
    NoDup (map Customer.customer_id (customers db)) /\
    (forall c, In c (customers db) -> Customer.name c = None) /\
    (forall l, In l (loans db) -> select_customer (Loan.customer_id l) db <> None).
Proof.
  intros db Hreach. destruct (reachable_integrity db Hreach) as [H1 H2 H3 _ _ _ _].
  split; [exact H1|]. split; [exact H2|].
  intros l Hl Hnone. apply (select_customer_none_ids _ _ Hnone). now apply H3.
Qed.

Lemma customers_kept_witness :
  NoDup (map Customer.customer_id (customers (snd scenario_pay1))).
Proof.
  pose proof (reachable_step _
    (PostLoans "L1" 10 (loan_request "alice" (of_Z 100000) (of_Z 1) (of_Z 10)))
    reachable_empty) as H0.
  pose proof (reachable_step _
    (PostPayments "T1" 20 "L1" (payment_request (Fin (916667 # 100)) "EMI")) H0) as H1.
  exact (proj1 (customers_kept _ H1)).
Defined.

(** X8. In every store the server can reach the loan ids and the payment
    ids are distinct, and every payment row belongs to a stored loan, has
    type EMI or LUMP_SUM, and has an amount that is not negative and is in
    whole cents or infinite. *)
Theorem payments_kept :
  forall db : DB,
    reachable db ->
    NoDup (map Loan.loan_id (loans db)) /\
    NoDup (map Payment.payment_id (payments db)) /\
    forall p, In p (payments db) ->
      select_loan (Payment.loan_id p) db <> None /\
      (Payment.payment_type p = "EMI" \/ Payment.payment_type p = "LUMP_SUM") /\
      (of_Z 0 <=? Payment.amount p)%js = true /\
      money (Payment.amount p).
Proof.
  intros db Hreach.
  destruct (reachable_integrity db Hreach) as [_ _ _ _ H5 H6 H7].
  destruct (reachable_inv db Hreach) as [I1 I2 I3 _ _].
  split; [exact I1|]. split; [exact H5|].
  intros p Hp. split; [|split; [now apply H6|split; [now apply H7|now apply I3]]].
  intros Hnone. apply (select_loan_none_ids _ _ Hnone). now apply I2.
Qed.

Lemma payments_kept_witness :
  NoDup (map Payment.payment_id (payments (snd scenario_pay2))).
Proof.
  pose proof (reachable_step _
    (PostLoans "L1" 10 (loan_request "alice" (of_Z 100000) (of_Z 1) (of_Z 10)))
    reachable_empty) as H0.
  pose proof (reachable_step _
    (PostPayments "T1" 20 "L1" (payment_request (Fin (916667 # 100)) "EMI")) H0) as H1.
  pose proof (reachable_step _
    (PostPayments "T2" 30 "L1" (payment_request (Fin (10083333 # 100)) "LUMP_SUM")) H1)
    as H2.
  exact (proj1 (proj2 (payments_kept _ H2))).
Defined.

(** X9. In every store the server can reach every loan row has a principal
    and a term greater than zero and a rate that is not negative, and its
    stored total and installment are those [computeSI] and [round2] give
    for its stored terms: [total_amount = round2(A)] and
    [monthly_emi = round2(A / (N * 12))]. *)
Theorem loans_kept :
  forall (db : DB) (l : Loan.row),
    reachable db -> In l (loans db) ->
    let P := Loan.principal_amount l in
    let N := Loan.loan_period_years l in
    let R := Loan.interest_rate l in
    let A := SI_A (computeSI P N R) in
    (of_Z 0 <? P)%js = true /\ (of_Z 0 <? N)%js = true /\ (of_Z 0 <=? R)%js = true /\
    Loan.total_amount l = round2 A /\
    Loan.monthly_emi l = round2 (A / (N * of_Z 12))%js.
Proof.
  intros db l Hreach Hl P N R A.
  destruct (reachable_integrity db Hreach) as [_ _ _ H4 _ _ _].
  destruct (H4 l Hl) as ((HP & HN & HR) & (Ht & He)).
  repeat split; assumption.
Qed.

Lemma loans_kept_witness :
  Loan.monthly_emi (Loan.mk "L1" "alice" (Fin 100000) (Fin 10) (Fin 1) (Fin 110000)
                            (Fin (916667 # 100)) PAID_OFF 10)
  = round2 (SI_A (computeSI (Fin 100000) (Fin 1) (Fin 10)) / (Fin 1 * of_Z 12))%js.
Proof.
  pose proof (reachable_step _
    (PostLoans "L1" 10 (loan_request "alice" (of_Z 100000) (of_Z 1) (of_Z 10)))
    reachable_empty) as H0.
  pose proof (reachable_step _
    (PostPayments "T1" 20 "L1" (payment_request (Fin (916667 # 100)) "EMI")) H0) as H1.
  pose proof (reachable_step _
    (PostPayments "T2" 30 "L1" (payment_request (Fin (10083333 # 100)) "LUMP_SUM")) H1)
    as H2.
  refine (proj2 (proj2 (proj2 (proj2 (loans_kept _ _ H2 _))))).
  vm_compute. left. reflexivity.
Defined.

(** X10. No call deletes or rewrites a customer or a payment, or removes a
    loan: after any sequence of calls the customers and the payments of the
    store are those before it, unchanged and in place, followed by new
    rows, and the loan ids are those before it followed by new ones. *)
Theorem tables_only_grow :
  forall (rs : list request) (db : DB),
    exists cs ls ps,
      customers (run rs db) = customers db ++ cs /\
      map Loan.loan_id (loans (run rs db)) = map Loan.loan_id (loans db) ++ ls /\
      payments (run rs db) = payments db ++ ps.
Proof. exact run_grows. Qed.


(* ================================================================== *)
(** ** Further properties: the payment route and the ledger *)
(* ================================================================== *)

Section PaymentRoute.

Lemma bad_amount_spec (a : num) : bad_amount a = negb (of_Z 0 <? a)%js.
Proof.
  unfold bad_amount. destruct a as [q| | |]; cbn [falsy le lt of_Z negb orb];
    try reflexivity.
  unfold Qis_zero, Qleb, Qltb. cbn [inject_Z Qnum Qden].
  destruct (Z.eqb_spec (Qnum q) 0) as [E|E]; cbn [orb].
  - rewrite E. reflexivity.
  - destruct (Z.leb_spec (Qnum q * 1) (0 * QDen q)),
             (Z.ltb_spec (0 * QDen q) (Qnum q * 1)); cbn [negb]; try reflexivity; lia.
Qed.

Lemma bad_payment_type_spec (ty : string) :
  ty <> "EMI" -> ty <> "LUMP_SUM" -> bad_payment_type ty = true.
Proof.
  intros H1 H2. unfold bad_payment_type, known_payment_type.
  destruct (String.eqb_spec ty "EMI"); [contradiction|].
  destruct (String.eqb_spec ty "LUMP_SUM"); [contradiction|].
  now rewrite orb_true_r.
Qed.

End PaymentRoute.

(** X11. The payment route tests in a fixed order and stores nothing when a
    test fails: an unknown loan gives 404 "Loan not found" whatever the
    body; on a known loan an amount that is absent, zero, negative or
    [NaN] gives 400 "amount must be > 0" whatever the type and the status;
    with a good amount a type other than EMI and LUMP_SUM (matched exactly)
    gives 400 on the payment type whatever the status. *)
Theorem payment_checks_in_order :
  forall (uuid : string) (now : timestamp) (loanId : string) (req : PaymentReq.t)
         (db : DB),
    (select_loan loanId db = None ->
     post_payments uuid now loanId req db = (LoanNotFound, db)) /\
    (select_loan loanId db <> None ->
     (PaymentReq.amount req = None \/
      (exists a, PaymentReq.amount req = Some a /\ (of_Z 0 <? a)%js = false)) ->
     post_payments uuid now loanId req db = (InvalidAmount, db)) /\
    (select_loan loanId db <> None ->
     (exists a, PaymentReq.amount req = Some a /\ (of_Z 0 <? a)%js = true) ->
     (PaymentReq.payment_type req = None \/
      (exists ty, PaymentReq.payment_type req = Some ty /\
                  ty <> "EMI" /\ ty <> "LUMP_SUM")) ->
     post_payments uuid now loanId req db = (InvalidPaymentType, db)).
Proof.
  intros uuid now loanId req db. unfold post_payments, getLoanOr404.
  split; [|split].
  - intros ->. reflexivity.
  - intros Hl [Ha|(a & Ha & Hbad)]; destruct (select_loan loanId db); try congruence;
      rewrite Ha; [reflexivity|].
    rewrite bad_amount_spec, Hbad. reflexivity.
  - intros Hl (a & Ha & Hgood) Hty. destruct (select_loan loanId db); try congruence.
    rewrite Ha, bad_amount_spec, Hgood. cbn [negb].
    destruct Hty as [->|(ty & -> & H1 & H2)]; [reflexivity|].
    now rewrite bad_payment_type_spec.
Qed.

Lemma payment_checks_in_order_witness :
  post_payments "T9" 50 "nope" (payment_request (Fin (-1)) "CASH") scenario_db0
  = (LoanNotFound, scenario_db0) /\
  post_payments "T9" 50 "L1" (payment_request (Fin (-1)) "CASH") scenario_db0
  = (InvalidAmount, scenario_db0) /\
  post_payments "T9" 50 "L1" (payment_request (Fin 1) "emi") scenario_db0
  = (InvalidPaymentType, scenario_db0).
Proof.
  split; [|split].
  - apply (proj1 (payment_checks_in_order "T9" 50%Z "nope"
                    (payment_request (Fin (-1)) "CASH") scenario_db0)).
    reflexivity.
  - apply (proj1 (proj2 (payment_checks_in_order "T9" 50%Z "L1"
                           (payment_request (Fin (-1)) "CASH") scenario_db0))).
    + discriminate.
    + right. exists (Fin (-1)). split; reflexivity.
  - apply (proj2 (proj2 (payment_checks_in_order "T9" 50%Z "L1"
                           (payment_request (Fin 1) "emi") scenario_db0))).
    + discriminate.
    + exists (Fin 1). split; reflexivity.
    + right. exists "emi". repeat split; discriminate.
Defined.

Section Signs.

Lemma lt_le_weak (x : num) : (of_Z 0 <? x)%js = true -> (of_Z 0 <=? x)%js = true.
Proof.
  destruct x as [q| | |]; cbn [lt le of_Z]; try congruence.
  intros H. apply Qltb_spec in H. apply Qleb_spec. now apply Qlt_le_weak.
Qed.

Lemma not_negative_cases (x : num) :
  not_negative x -> x = NaN \/ x = PInf \/ exists q, x = Fin q /\ 0 <= q.
Proof.
  intros [H|H]; destruct x as [q| | |]; try discriminate; auto.
  right. right. exists q. split; [reflexivity|].
  cbn [le of_Z] in H. now apply Qleb_spec in H.
Qed.

Lemma not_negative_Fin (q : Q) : 0 <= q -> not_negative (Fin q).
Proof. intros H. right. cbn [le of_Z]. now apply Qleb_spec. Qed.

Lemma not_negative_mul (x y : num) :
  not_negative x -> not_negative y -> not_negative (x * y)%js.
Proof.
  intros Hx Hy.
  destruct (not_negative_cases x Hx) as [->|[->|(a & -> & Ha)]];
    destruct (not_negative_cases y Hy) as [->|[->|(b & -> & Hb)]];
    cbn [mul]; try (left; reflexivity); try (right; reflexivity).
  - destruct (Qis_zero b) eqn:E; [left; reflexivity|].
    apply Qis_zero_false in E.
    assert (Qis_pos b = true) as -> by (apply Qis_pos_spec; lra).
    right. reflexivity.
  - destruct (Qis_zero a) eqn:E; [left; reflexivity|].
    apply Qis_zero_false in E.
    assert (Qis_pos a = true) as -> by (apply Qis_pos_spec; lra).
    right. reflexivity.
  - apply not_negative_Fin. rewrite Qred_correct. now apply Qmult_le_0_compat.
Qed.

Lemma not_negative_add (x y : num) :
  not_negative x -> not_negative y -> not_negative (x + y)%js.
Proof.
  intros Hx Hy.
  destruct (not_negative_cases x Hx) as [->|[->|(a & -> & Ha)]];
    destruct (not_negative_cases y Hy) as [->|[->|(b & -> & Hb)]];
    cbn [add]; try (left; reflexivity); try (right; reflexivity).
  apply not_negative_Fin. rewrite Qred_correct. lra.
Qed.

Lemma not_negative_div_100 (x : num) :
  not_negative x -> not_negative (x / of_Z 100)%js.
Proof.
  intros Hx.
  destruct (not_negative_cases x Hx) as [->|[->|(a & -> & Ha)]];
    try (left; reflexivity); try (right; reflexivity).
  rewrite div_by_100. apply not_negative_Fin. rewrite Qred_correct.
  apply Qle_shift_div_l; [reflexivity|]. lra.
Qed.

Lemma not_negative_round2 (x : num) : not_negative x -> not_negative (round2 x).
Proof.
  intros [H|H].
  - destruct x; try discriminate. left. reflexivity.
  - right. change (of_Z 0) with (round2 (of_Z 0)). now apply round2_le.
Qed.

(** The total of a loan with accepted terms is not negative. *)
Lemma total_not_negative (l : Loan.row) :
  accepted_terms l -> origination_consistent l -> not_negative (Loan.total_amount l).
Proof.
  intros (HP & HN & HR) (Ht & _). rewrite Ht. apply not_negative_round2.
  unfold computeSI. cbn [SI_A].
  apply lt_le_weak in HP, HN.
  apply not_negative_add; [now right|].
  apply not_negative_mul; [apply not_negative_mul; now right|].
  apply not_negative_div_100. now right.
Qed.

Lemma round2_cents_compat (a b : Q) : a == b -> round2_cents a = round2_cents b.
Proof.
  intros H. apply Z.le_antisymm; apply round2_cents_mono; rewrite H; apply Qle_refl.
Qed.

Lemma round2_Fin_compat (a b : Q) : a == b -> round2 (Fin a) = round2 (Fin b).
Proof.
  intros H. rewrite !round2_Fin, (round2_cents_compat a b H). reflexivity.
Qed.

(** With nothing paid the balance of a loan is its total. *)
Lemma balance_due_unpaid (l : Loan.row) (A : num) :
  Loan.total_amount l = round2 A -> not_negative (round2 A) ->
  balance_due l (Fin 0) = Loan.total_amount l.
Proof.
  intros Ht Hnn. unfold balance_due. rewrite Ht.
  pose proof (round2_round2 A) as Hidem.
  destruct (not_negative_cases _ Hnn) as [E|[E|(t & E & Hpos)]]; rewrite E in *.
  - reflexivity.
  - reflexivity.
  - cbn [sub].
    rewrite (round2_Fin_compat (Qred (t - 0)) t)
      by (rewrite Qred_correct; ring).
    rewrite Hidem. cbn [Math_max le of_Z].
    assert (Qleb (inject_Z 0) t = true) as -> by now apply Qleb_spec.
    reflexivity.
Qed.

Lemma payments_of_fresh (id : string) (db : DB) :
  (forall p, In p (payments db) -> Payment.loan_id p <> id) ->
  payments_of id db = [].
Proof.
  intros H. unfold payments_of.
  induction (payments db) as [|p ps IH]; cbn [filter]; [reflexivity|].
  destruct (String.eqb_spec (Payment.loan_id p) id) as [E|_].
  - exfalso. apply (H p); [now left|exact E].
  - apply IH. intros q Hq. apply H. now right.
Qed.

End Signs.



Section LedgerReads.

(** The ledger of a loan reads the row of the loan and its payments only. *)
Lemma get_ledger_ext (id : string) (db db' : DB) :
  select_loan id db' = select_loan id db ->
  payments_of id db' = payments_of id db ->
  totalsForLoan id db' = totalsForLoan id db /\ get_ledger id db' = get_ledger id db.
Proof.
  intros Hl Hp.
  assert (Ht : totalsForLoan id db' = totalsForLoan id db).
  { unfold totalsForLoan, getLoanOr404, select_paid. now rewrite Hl, Hp. }
  split; [exact Ht|]. unfold get_ledger, ledger_rows. now rewrite Ht, Hp.
Qed.

Lemma payments_of_with_payment (np : Payment.row) (id : string) (db : DB) :
  payments_of id (with_payment np db) =
  payments_of id db ++ (if String.eqb (Payment.loan_id np) id then [np] else []).
Proof.
  unfold payments_of, with_payment. cbn [payments]. rewrite filter_app. cbn [filter].
  destruct (String.eqb _ _); reflexivity.
Qed.

Lemma find_app_old {A : Type} (f : A -> bool) (l l' : list A) :
  find f l <> None -> find f (l ++ l') = find f l.
Proof.
  induction l as [|a l IH]; cbn; [congruence|].
  destruct (f a); [reflexivity|exact IH].
Qed.

Lemma select_loan_mark_other (id loanId : string) (db : DB) :
  id <> loanId ->
  select_loan id (update_paid_off loanId db) = select_loan id db.
Proof.
  intros Hne. rewrite select_loan_update.
  destruct (select_loan id db) as [l|] eqn:E; [|reflexivity].
  cbn [option_map]. rewrite (select_loan_id _ _ _ E).
  destruct (String.eqb_spec id loanId); [contradiction|reflexivity].
Qed.

End LedgerReads.

(** X13. After the payment route replies 200, the ledger of the loan shows
    the balance and the count of installments the reply showed, and its
    payments are those it had followed by one new row: the id drawn for the
    payment, the amount rounded to two decimals, the type and the time of
    the call. *)
Theorem payment_shows_in_ledger :
  forall (uuid : string) (now : timestamp) (loanId : string) (req : PaymentReq.t)
         (db db' : DB) (body : json),
    post_payments uuid now loanId req db = (mkResponse (Http 200) body, db') ->
    exists lbody a ty balance emis,
      PaymentReq.amount req = Some a /\
      PaymentReq.payment_type req = Some ty /\
      get "remaining_balance" body = Some (JNum balance) /\
      get "emis_left" body = Some (JNum emis) /\
      get_ledger loanId db' = mkResponse (Http 200) lbody /\
      get "balance_amount" lbody = Some (JNum balance) /\
      get "emis_left" lbody = Some (JNum emis) /\
      get "transactions" lbody = Some (JArr (map txn_json (ledger_rows loanId db'))) /\
      payments_of loanId db'
      = payments_of loanId db
          ++ [Payment.mk (next_rowid (payments db)) uuid loanId (round2 a) ty now].
Proof.
  intros uuid now loanId req db db' body Hpost.
  destruct (post_payments_cases uuid now loanId req db) as [[_ Hne]|H].
  { rewrite Hpost in Hne. now contradiction Hne. }
  destruct H as (loan & a & ty & t & Hl & Hst & Ha & _ & Hty & _ & _ & Ht & Heq).
  rewrite Hpost in Heq. injection Heq as Hbody Hdb'.
  set (np := new_payment uuid now loanId a ty db) in *.
  set (db1 := with_payment np db) in *.
  assert (Hl1 : select_loan loanId db1 = Some loan) by exact Hl.
  rewrite (totalsForLoan_found _ _ _ Hl1) in Ht. injection Ht as Ht.
  assert (Hpay : payments_of loanId db' = payments_of loanId db ++ [np]).
  { assert (E : payments_of loanId db' = payments_of loanId db1)
      by (rewrite Hdb'; destruct (t_balance t <=? of_Z 0)%js; reflexivity).
    rewrite E. unfold db1. rewrite payments_of_with_payment.
    unfold np at 1. cbn [new_payment Payment.loan_id]. now rewrite String.eqb_refl. }
  assert (Hpaid : select_paid loanId db' = select_paid loanId db1).
  { rewrite Hdb'. destruct (t_balance t <=? of_Z 0)%js; reflexivity. }
  assert (Hl' : exists loan', select_loan loanId db' = Some loan' /\
                              Loan.total_amount loan' = Loan.total_amount loan /\
                              Loan.monthly_emi loan' = Loan.monthly_emi loan).
  { rewrite Hdb'. destruct (t_balance t <=? of_Z 0)%js.
    - rewrite select_loan_update, Hl1. cbn [option_map]. eexists. split; [reflexivity|].
      destruct (String.eqb _ _); split; reflexivity.
    - exists loan. repeat split. exact Hl1. }
  destruct Hl' as (loan' & Hsel' & Etot & Eemi).
  exists (res_body (get_ledger loanId db')), a, ty, (t_balance t), (t_emisLeft t).
  split; [exact Ha|]. split; [exact Hty|].
  rewrite Hbody. cbn [get field String.eqb Ascii.eqb Bool.eqb].
  split; [reflexivity|]. split; [reflexivity|].
  unfold get_ledger. rewrite (totalsForLoan_found _ _ _ Hsel'), Hpaid.
  cbn [res_body t_loan t_paid t_balance t_emisLeft get field String.eqb Ascii.eqb Bool.eqb].
  rewrite <- Ht. cbn [t_balance t_emisLeft].
  unfold balance_due, emis_left. rewrite Etot, Eemi.
  repeat split. exact Hpay.
Qed.

Lemma payment_shows_in_ledger_witness :
  exists lbody,
    get_ledger "L1" (snd scenario_pay1) = mkResponse (Http 200) lbody /\
    get "balance_amount" lbody = Some (JNum (Fin (10083333 # 100))).
Proof.
  destruct (payment_shows_in_ledger "T1" 20%Z "L1"
              (payment_request (Fin (916667 # 100)) "EMI") scenario_db0
              (snd scenario_pay1) (res_body (fst scenario_pay1)) eq_refl)
    as (lbody & a & ty & balance & emis & _ & _ & Hb & _ & Hl & Hlb & _).
  exists lbody. split; [exact Hl|].
  vm_compute in Hb. injection Hb as <-. exact Hlb.
Defined.

(** X14. A call leaves the ledger of every loan it is not a payment on as
    it was: creating a loan, paying on another loan, and the reads change
    nothing in what the ledger of a stored loan replies. *)
Theorem other_ledgers_untouched :
  forall (r : request) (db : DB) (id : string),
    select_loan id db <> None ->
    (forall uuid now req, r <> PostPayments uuid now id req) ->
    get_ledger id (snd (handle r db)) = get_ledger id db.
Proof.
  intros r db id Hsome Hother.
  apply get_ledger_ext.
  - destruct r as [uuid now req|uuid now loanId req|loanId|customerId|];
      cbn [handle snd]; try reflexivity.
    + destruct (post_loans_paths uuid now req db) as [->|[->|H]]; try reflexivity.
      destruct H as (cid & P & N & R & _ & _ & _ & _ & _ & _ & Hpath). cbv zeta in Hpath.
      destruct Hpath as [(_ & -> & _)|(_ & _ & _ & _ & _ & _ & _ & _ & ->)].
      * unfold select_loan. now rewrite loans_upsertCustomer.
      * unfold select_loan. cbn [loans]. now apply find_app_old.
    + assert (Hne : id <> loanId).
      { intros <-. now apply (Hother uuid now req). }
      destruct (post_payments_cases uuid now loanId req db) as [[-> _]|H];
        [reflexivity|].
      destruct H as (loan & a & ty & t & _ & _ & _ & _ & _ & _ & _ & _ & ->).
      cbn [snd]. destruct (t_balance t <=? of_Z 0)%js; [|reflexivity].
      now rewrite select_loan_mark_other.
  - destruct r as [uuid now req|uuid now loanId req|loanId|customerId|];
      cbn [handle snd]; try reflexivity.
    + unfold payments_of.
      destruct (post_loans_cases uuid now req db) as [[_ ->]|H]; [reflexivity|].
      destruct H as (cid & P & N & R & _ & _ & _ & _ & _ & _ & _ & ->). reflexivity.
    + assert (Hne : id <> loanId).
      { intros <-. now apply (Hother uuid now req). }
      destruct (post_payments_cases uuid now loanId req db) as [[-> _]|H];
        [reflexivity|].
      destruct H as (loan & a & ty & t & _ & _ & _ & _ & _ & _ & _ & _ & ->).
      cbn [snd].
      assert (E : payments_of id (with_payment (new_payment uuid now loanId a ty db) db)
                  = payments_of id db).
      { rewrite payments_of_with_payment. cbn [new_payment Payment.loan_id].
        destruct (String.eqb_spec loanId id); [congruence|]. apply app_nil_r. }
      destruct (t_balance t <=? of_Z 0)%js; exact E.
Qed.

Lemma other_ledgers_untouched_witness :
  get_ledger "L1" (snd (handle collision_request scenario_db0))
  = get_ledger "L1" scenario_db0.
Proof.
  apply (other_ledgers_untouched collision_request scenario_db0 "L1").
  - discriminate.
  - intros uuid now req. discriminate.
Defined.

(* ================================================================== *)
(** ** Further properties: the balance *)
(* ================================================================== *)

Section Balance.

(** The balance against cumulative payments in cents or infinite. *)
Lemma balance_due_money (loan : Loan.row) (t : Q) (s : num) :
  Loan.total_amount loan = Fin t -> cents t -> money s ->
  exists b, balance_due loan s = Fin b /\ 0 <= b /\
    (s = PInf -> b = 0) /\
    (forall q, s = Fin q -> t - q <= b /\ (b == t - q \/ b = 0)).
Proof.
  intros Ht Hc [->|(q & -> & Hq)]; unfold balance_due; rewrite Ht.
  - exists 0. split; [reflexivity|]. split; [discriminate|].
    split; [reflexivity|]. intros q [=].
  - cbn [sub].
    rewrite (round2_of_cents (Qred (t - q))) by now apply cents_Qred, cents_minus.
    set (v := Qred (Qred (t - q))).
    assert (Hv : v == t - q) by (unfold v; now rewrite !Qred_correct).
    clearbody v. unfold of_Z. change (inject_Z 0) with 0. cbn [Math_max le].
    destruct (Qleb 0 v) eqn:E.
    + apply Qleb_spec in E. exists v. split; [reflexivity|]. split; [exact E|].
      split; [discriminate|]. intros q' [= <-]. split; [lra|now left].
    + apply Qleb_false in E. exists 0. split; [reflexivity|].
      split; [apply Qle_refl|]. split; [reflexivity|].
      intros q' [= <-]. split; [lra|now right].
Qed.

Lemma balance_due_reduced (loan : Loan.row) (t : Q) (s : num) (b : Q) :
  Loan.total_amount loan = Fin t -> cents t -> money s ->
  balance_due loan s = Fin b -> Qred b = b.
Proof.
  intros Ht Hc [->|(q & -> & Hq)]; unfold balance_due; rewrite Ht.
  - intros H. assert (E : b = 0) by (vm_compute in H; congruence).
    rewrite E. reflexivity.
  - cbn [sub].
    rewrite (round2_of_cents (Qred (t - q))) by now apply cents_Qred, cents_minus.
    set (v := Qred (t - q)). unfold of_Z. change (inject_Z 0) with 0.
    cbn [Math_max le].
    destruct (Qleb 0 (Qred v)); intros H.
    + assert (E : b = Qred v) by congruence. rewrite E.
      apply Qred_complete, Qred_correct.
    + assert (E : b = 0) by congruence. rewrite E. reflexivity.
Qed.

Lemma le_add_not_negative (s a : num) :
  money s -> money a -> (of_Z 0 <=? a)%js = true -> (s <=? s + a)%js = true.
Proof.
  intros [->|(q & -> & _)] [->|(x & -> & _)] Ha; cbn [add le of_Z] in *;
    try reflexivity.
  apply Qleb_spec in Ha. apply Qleb_spec. rewrite Qred_correct.
  change (inject_Z 0) with 0 in Ha. lra.
Qed.

Lemma sum_amounts_snoc (l : list num) (x : num) :
  sum_amounts (l ++ [x]) = (sum_amounts l + x)%js.
Proof.
  rewrite (sum_amounts_perm (l ++ [x]) (x :: l)).
  - cbn [sum_amounts fold_right]. apply add_comm.
  - apply Permutation_sym, Permutation_cons_append.
Qed.

Lemma sum_not_negative (l : list num) :
  Forall money l -> Forall (fun a => (of_Z 0 <=? a)%js = true) l ->
  (of_Z 0 <=? sum_amounts l)%js = true.
Proof.
  induction 1 as [|x l Hx Hl IH]; intros Hpos; [reflexivity|].
  inversion Hpos as [|? ? Hx0 Hl0]; subst. specialize (IH Hl0).
  cbn [sum_amounts fold_right]. fold (sum_amounts l).
  pose proof (money_sum l Hl) as Hs.
  destruct Hx as [->|(a & -> & _)], Hs as [Es|(q & Es & _)]; rewrite Es in *;
    cbn [add le of_Z] in *; try reflexivity.
  apply Qleb_spec in Hx0, IH. apply Qleb_spec. rewrite Qred_correct.
  change (inject_Z 0) with 0 in *. lra.
Qed.

(** More paid, less due. *)
Lemma balance_due_antitone (loan : Loan.row) (t : Q) (s s' : num) :
  Loan.total_amount loan = Fin t -> cents t -> money s -> money s' ->
  (s <=? s')%js = true ->
  (balance_due loan s' <=? balance_due loan s)%js = true.
Proof.
  intros Ht Hc Hs Hs' Hle.
  destruct (balance_due_money loan t s Ht Hc Hs) as (b & -> & Hb & Hinf & Hfin).
  destruct (balance_due_money loan t s' Ht Hc Hs') as (b' & -> & Hb' & Hinf' & Hfin').
  cbn [le]. apply Qleb_spec.
  destruct Hs' as [E'|(q' & E' & _)].
  - rewrite (Hinf' E'). exact Hb.
  - destruct Hs as [E|(q & E & _)].
    + rewrite E, E' in Hle. discriminate.
    + rewrite E, E' in Hle. cbn [le] in Hle. apply Qleb_spec in Hle.
      destruct (Hfin q E) as [H1 _]. destruct (Hfin' q' E') as [_ [H2|H2]].
      * lra.
      * rewrite H2. exact Hb.
Qed.

End Balance.





(* ================================================================== *)
(** ** Further properties: the overview and the ledger *)
(* ================================================================== *)

Section OverviewFacts.

Lemma select_loan_of_In (db : DB) (l : Loan.row) :
  NoDup (map Loan.loan_id (loans db)) -> In l (loans db) ->
  select_loan (Loan.loan_id l) db = Some l.
Proof.
  intros Hnd Hin. unfold select_loan.
  destruct (find _ (loans db)) as [l'|] eqn:E.
  - apply find_some in E. destruct E as [Hin' Heq]. apply String.eqb_eq in Heq.
    f_equal. now apply (NoDup_ids_unique (loans db)).
  - pose proof (find_none _ _ E l Hin) as H. cbn in H.
    rewrite String.eqb_refl in H. discriminate.
Qed.

Lemma Qfloor_shift (y : Q) (k : Z) : Qfloor (y + inject_Z k) = (Qfloor y + k)%Z.
Proof.
  apply Qfloor_between.
  - rewrite inject_Z_plus. pose proof (Qfloor_le y). lra.
  - pose proof (Qlt_floor y) as H. rewrite !inject_Z_plus in *. lra.
Qed.

Lemma Qfloor_compat (a b : Q) : a == b -> Qfloor a = Qfloor b.
Proof.
  intros H. apply Z.le_antisymm; apply Qfloor_resp_le; rewrite H; apply Qle_refl.
Qed.

(** Rounding a sum with an amount in whole cents rounds the rest. *)
Lemma round2_cents_shift (i p : Q) (k : Z) :
  p == k # 100 -> round2_cents (p + i) = (round2_cents i + k)%Z.
Proof.
  intros Hp. unfold round2_cents. rewrite <- Qfloor_shift.
  apply Qfloor_compat. rewrite !Qred_correct, Hp.
  assert (E : k # 100 == inject_Z k / 100) by apply Qmake_Qdiv.
  rewrite E. change (inject_Z 100) with 100. field.
Qed.

End OverviewFacts.

(** X17. For every loan of a store the server can reach, the summary of the
    overview and the ledger agree: they show the same amount paid, the same
    count of installments left, the same status, total and installment. *)
Theorem overview_agrees_with_ledger :
  forall (db : DB) (ln : Loan.row),
    reachable db -> In ln (loans db) ->
    exists body paid emis,
      get_ledger (Loan.loan_id ln) db = mkResponse (Http 200) body /\
      get "amount_paid" body = Some (JNum paid) /\
      get "amount_paid" (overview_entry db ln) = Some (JNum paid) /\
      get "emis_left" body = Some (JNum emis) /\
      get "emis_left" (overview_entry db ln) = Some (JNum emis) /\
      get "status" body = Some (JStr (status_text (Loan.status ln))) /\
      get "status" (overview_entry db ln) = Some (JStr (status_text (Loan.status ln))) /\
      get "total_amount" body = get "total_amount" (overview_entry db ln) /\
      get "monthly_emi" body = get "emi_amount" (overview_entry db ln) /\
      get "principal" body = get "principal" (overview_entry db ln).
Proof.
  intros db ln Hreach Hin.
  pose proof (select_loan_of_In db ln (inv_ids db (reachable_inv db Hreach)) Hin) as Hsel.
  exists (res_body (get_ledger (Loan.loan_id ln) db)).
  unfold get_ledger. rewrite (totalsForLoan_found _ _ _ Hsel).
  cbn [res_body t_loan t_paid t_balance t_emisLeft].
  do 2 eexists. split; [reflexivity|].
  unfold overview_entry, balance_due, emis_left.
  cbn [get field String.eqb Ascii.eqb Bool.eqb]. repeat split.
Qed.

Lemma overview_agrees_with_ledger_witness :
  exists paid,
    get "amount_paid" (res_body (get_ledger "L1" (snd scenario_pay1))) = Some (JNum paid) /\
    get "amount_paid"
        (overview_entry (snd scenario_pay1)
           (Loan.mk "L1" "alice" (Fin 100000) (Fin 10) (Fin 1) (Fin 110000)
                    (Fin (916667 # 100)) ACTIVE 10)) = Some (JNum paid).
Proof.
  pose proof (reachable_step _
    (PostLoans "L1" 10 (loan_request "alice" (of_Z 100000) (of_Z 1) (of_Z 10)))
    reachable_empty) as H0.
  pose proof (reachable_step _
    (PostPayments "T1" 20 "L1" (payment_request (Fin (916667 # 100)) "EMI")) H0) as H1.
  destruct (overview_agrees_with_ledger _
              (Loan.mk "L1" "alice" (Fin 100000) (Fin 10) (Fin 1) (Fin 110000)
                       (Fin (916667 # 100)) ACTIVE 10) H1)
    as (body & paid & emis & Hl & Hp & Ho & _).
  - vm_compute. left. reflexivity.
  - exists paid. split; [|exact Ho].
    exact (eq_trans (f_equal (fun reply => get "amount_paid" (res_body reply)) Hl) Hp).
Defined.



(** X19. In a store the server can reach, for a loan whose total is finite
    and positive, the status and the balance of the ledger go together: the
    loan is PAID_OFF exactly when the balance is 0 and ACTIVE exactly when
    the balance is positive. *)
Theorem ledger_status_matches_balance :
  forall (db : DB) (loanId : string) (loan : Loan.row) (t : Q),
    reachable db ->
    select_loan loanId db = Some loan ->
    Loan.total_amount loan = Fin t -> 0 < t ->
    exists body balance,
      get_ledger loanId db = mkResponse (Http 200) body /\
      get "balance_amount" body = Some (JNum balance) /\
      get "status" body = Some (JStr (status_text (Loan.status loan))) /\
      (Loan.status loan = PAID_OFF <-> balance = Fin 0) /\
      (Loan.status loan = ACTIVE <-> (of_Z 0 <? balance)%js = true).
Proof.
  intros db loanId loan t Hreach Hl Htot Hpos.
  pose proof (reachable_inv db Hreach) as Hinv.
  assert (Hin : In loan (loans db)) by now apply select_loan_In in Hl.
  assert (Hid : Loan.loan_id loan = loanId) by now apply select_loan_id in Hl.
  assert (Hc : cents t) by now apply (inv_totals db Hinv loan).
  pose proof (inv_status db Hinv loan t Hin Htot Hpos) as Hst. rewrite Hid in Hst.
  assert (HS : money (paid_to_date loanId db))
    by apply money_sum, amounts_money, (inv_amounts db Hinv).
  rewrite Htot, <- (settle_test loan t _ Htot Hc HS) in Hst.
  exists (res_body (get_ledger loanId db)), (balance_due loan (paid_to_date loanId db)).
  unfold get_ledger.
  rewrite (totalsForLoan_found _ _ _ Hl), (reachable_select_paid db loanId Hreach).
  cbn [res_body t_loan t_paid t_balance t_emisLeft get field String.eqb Ascii.eqb Bool.eqb].
  split; [reflexivity|]. split; [reflexivity|]. split; [reflexivity|].
  destruct (balance_due_money loan t _ Htot Hc HS) as (b & Eb & Hb & _).
  rewrite Eb in *. cbn [le lt of_Z] in *.
  assert (Hzero : Qleb b (inject_Z 0) = true <-> Fin b = Fin 0).
  { split.
    - intros H. apply Qleb_spec in H. change (inject_Z 0) with 0 in H.
      assert (E : b == 0) by lra.
      rewrite <- (balance_due_reduced loan t _ b Htot Hc HS Eb).
      f_equal. now apply (Qred_complete b 0).
    - intros [= ->]. reflexivity. }
  split.
  - rewrite Hst. exact Hzero.
  - split.
    + intros Hact. destruct (Qltb (inject_Z 0) b) eqn:E; [reflexivity|].
      assert (Hz : Qleb b (inject_Z 0) = true).
      { apply Qleb_spec. unfold Qltb in E. apply Z.ltb_ge in E. exact E. }
      apply Hst in Hz. congruence.
    + intros Hlt. destruct (Loan.status loan) eqn:Es; [reflexivity|].
      assert (Hz : Qleb b (inject_Z 0) = true) by now apply Hst.
      apply Qleb_spec in Hz. apply Qltb_spec in Hlt. lra.
Qed.

Lemma ledger_status_matches_balance_witness :
  exists body,
    get_ledger "L1" (snd scenario_pay2) = mkResponse (Http 200) body /\
    get "balance_amount" body = Some (JNum (Fin 0)) /\
    get "status" body = Some (JStr "PAID_OFF").
Proof.
  pose proof (reachable_step _
    (PostLoans "L1" 10 (loan_request "alice" (of_Z 100000) (of_Z 1) (of_Z 10)))
    reachable_empty) as H0.
  pose proof (reachable_step _
    (PostPayments "T1" 20 "L1" (payment_request (Fin (916667 # 100)) "EMI")) H0) as H1.
  pose proof (reachable_step _
    (PostPayments "T2" 30 "L1" (payment_request (Fin (10083333 # 100)) "LUMP_SUM")) H1)
    as H2.
  destruct (ledger_status_matches_balance _ "L1"
              (Loan.mk "L1" "alice" (Fin 100000) (Fin 10) (Fin 1) (Fin 110000)
                       (Fin (916667 # 100)) PAID_OFF 10) 110000 H2 eq_refl eq_refl eq_refl)
    as (body & balance & Hl & Hb & Hs & Hpaid & _).
  exists body. split; [exact Hl|]. split; [|exact Hs].
  rewrite Hb. do 2 f_equal. now apply Hpaid.
Defined.

(* ================================================================== *)
(** ** Further properties: customers, types, payoff *)
(* ================================================================== *)

(** X20. [upsertCustomer] is idempotent: a second call for the same
    customer changes nothing, whatever the time, and a call for a customer
    who has a row changes nothing, so the row keeps its first creation
    time. *)
Theorem upsertCustomer_idempotent :
  forall (now now' : timestamp) (c : string) (db : DB),
    upsertCustomer now' c (upsertCustomer now c db) = upsertCustomer now c db /\
    (select_customer c db <> None -> upsertCustomer now c db = db).
Proof.
  intros now now' c db. split.
  - pose proof (upsertCustomer_exists now c db) as H.
    unfold upsertCustomer at 1. unfold select_customer in H.
    destruct (find _ (customers (upsertCustomer now c db))); [reflexivity|congruence].
  - intros H. unfold upsertCustomer. unfold select_customer in H.
    destruct (find _ (customers db)); [reflexivity|congruence].
Qed.

Lemma upsertCustomer_idempotent_witness :
  upsertCustomer 99 "alice" scenario_db0 = scenario_db0.
Proof.
  apply (proj2 (upsertCustomer_idempotent 99%Z 0%Z "alice" scenario_db0)).
  discriminate.
Defined.

Section TypeBlind.

Lemma totalsForLoan_amounts (id : string) (db db' : DB) :
  select_loan id db' = select_loan id db ->
  amounts_of id db' = amounts_of id db ->
  totalsForLoan id db' = totalsForLoan id db.
Proof.
  intros Hl Ha. unfold totalsForLoan, getLoanOr404, select_paid.
  fold (amounts_of id db'). fold (amounts_of id db). now rewrite Hl, Ha.
Qed.

End TypeBlind.

(** X21. The type of a payment has no effect on the accounts: with the
    same amount, a payment of type EMI and one of type LUMP_SUM get the
    same reply and leave the same loans and the same recorded amounts; only
    the type stored with the payment differs. *)
Theorem payment_type_has_no_effect :
  forall (uuid : string) (now : timestamp) (loanId : string) (a : option num)
         (ty1 ty2 : string) (db : DB),
    bad_payment_type ty1 = false -> bad_payment_type ty2 = false ->
    let r1 := post_payments uuid now loanId (PaymentReq.mk a (Some ty1)) db in
    let r2 := post_payments uuid now loanId (PaymentReq.mk a (Some ty2)) db in
    fst r1 = fst r2 /\
    customers (snd r1) = customers (snd r2) /\
    loans (snd r1) = loans (snd r2) /\
    map Payment.amount (payments (snd r1)) = map Payment.amount (payments (snd r2)).
Proof.
  intros uuid now loanId a ty1 ty2 db H1 H2 r1 r2. unfold r1, r2, post_payments.
  cbn [PaymentReq.amount PaymentReq.payment_type]. rewrite H1, H2.
  destruct (getLoanOr404 loanId db) as [loan|e] eqn:Hl; [|repeat split].
  destruct a as [a|]; [|repeat split].
  destruct (bad_amount a); [repeat split|].
  destruct (loan_status_eqb (Loan.status loan) PAID_OFF); [repeat split|].
  unfold insert_payment.
  destruct (isNaN (round2 (Number a))); [repeat split|].
  destruct (existsb _ (payments db)); [repeat split|].
  set (db1 := mkDB (customers db) (loans db)
                (payments db ++ [Payment.mk (next_rowid (payments db)) uuid loanId
                                            (round2 (Number a)) ty1 now])).
  set (db2 := mkDB (customers db) (loans db)
                (payments db ++ [Payment.mk (next_rowid (payments db)) uuid loanId
                                            (round2 (Number a)) ty2 now])).
  assert (Ht : totalsForLoan loanId db1 = totalsForLoan loanId db2).
  { apply totalsForLoan_amounts; [reflexivity|].
    unfold amounts_of, payments_of, db1, db2. cbn [payments].
    rewrite !filter_app, !map_app. cbn [filter Payment.loan_id].
    destruct (String.eqb loanId loanId); reflexivity. }
  rewrite Ht. destruct (totalsForLoan loanId db2) as [t|e]; cbn [fst snd].
  - split; [reflexivity|].
    destruct (t_balance t <=? of_Z 0)%js; cbn [negb andb];
      unfold db1, db2; cbn [customers loans payments update_paid_off];
      rewrite !map_app; repeat split.
  - unfold db1, db2. cbn [customers loans payments]. rewrite !map_app. repeat split.
Qed.

Lemma payment_type_has_no_effect_witness :
  fst (post_payments "T1" 20 "L1" (PaymentReq.mk (Some (Fin 5)) (Some "EMI")) scenario_db0)
  = fst (post_payments "T1" 20 "L1" (PaymentReq.mk (Some (Fin 5)) (Some "LUMP_SUM"))
           scenario_db0).
Proof.
  apply (payment_type_has_no_effect "T1" 20%Z "L1" (Some (Fin 5)) "EMI" "LUMP_SUM"
           scenario_db0); reflexivity.
Defined.




